(** * A shallow embedding of textmation's scene builder

    This development models [src/textmation/scenebuilder.py] (the
    [SceneBuilder] class) and [src/textmation/elements/drawables.py] (the
    drawable element types and their [on_ready] defaults).

    The element base class, the property table and the expression evaluator
    live in [textmation/elements/element.py] and [textmation/datatypes.py],
    which are not part of the sources at hand; the definitions standing for
    them are marked "Modelled from the spec" and follow the specification
    of the element property table (define/get/set), of lazy evaluation with
    percentage resolution, and of cycle detection.

    Python exceptions become the constructors of [py_error]; an exception
    aborts the whole build, so the builder is a state-and-error monad.  Python
    recursion is modelled with fuel; running out of fuel stands for Python's
    [RecursionError]. *)

From Stdlib Require Import String Ascii List ListDec Bool Arith Lia QArith ZArith.
Import ListNotations.
Open Scope nat_scope.
Set Warnings "-register-all".

(** ** Python-level helpers *)

Definition nl : string := String (ascii_of_nat 10) EmptyString.

(** Python truthiness of an optional string ([None] and [""] are false). *)
Definition truthy (s : option string) : bool :=
  match s with
  | Some x => negb (String.eqb x "")
  | None => false
  end.

(** [repr] of a string as Python prints it for identifiers. *)
Definition repr (s : string) : string := "'" ++ s ++ "'".

(** [sep.join(xs)] *)
Fixpoint join_with (sep : string) (xs : list string) : string :=
  match xs with
  | [] => ""
  | [x] => x
  | x :: rest => x ++ sep ++ join_with sep rest
  end.

(** [s.partition("\n")[0::2]]: the text before the first newline and the
    text after it ([""] when there is no newline). *)
Fixpoint partition_nl (s : string) : string * string :=
  match s with
  | EmptyString => (EmptyString, EmptyString)
  | String c rest =>
      if Ascii.eqb c (ascii_of_nat 10) then (EmptyString, rest)
      else let (a, b) := partition_nl rest in (String c a, b)
  end.

Fixpoint has_newline (s : string) : bool :=
  match s with
  | EmptyString => false
  | String c rest => Ascii.eqb c (ascii_of_nat 10) || has_newline rest
  end.

(** [%d] formatting of a (non-negative) line or column number. *)
Fixpoint digits_aux (fuel n : nat) (acc : string) : string :=
  match fuel with
  | 0 => acc
  | S f =>
      let d := String (ascii_of_nat (48 + Nat.modulo n 10)) acc in
      if Nat.ltb n 10 then d else digits_aux f (Nat.div n 10) d
  end.

Definition show_nat (n : nat) : string := digits_aux (S n) n "".

Fixpoint mem_string (x : string) (xs : list string) : bool :=
  match xs with
  | [] => false
  | y :: ys => String.eqb x y || mem_string x ys
  end.

(** ** Values (the [Value] hierarchy of [datatypes]) *)

Inductive angle_unit := Degrees | Radians.
Inductive time_unit := Seconds | Milliseconds.

Definition angle_unit_value (u : angle_unit) : string :=
  match u with Degrees => "deg" | Radians => "rad" end.
Definition time_unit_value (u : time_unit) : string :=
  match u with Seconds => "s" | Milliseconds => "ms" end.

Definition angle_units := [Degrees; Radians].
(** Modelled from the spec: [datatypes.TimeUnit] is not part of the
    sources; the spec lists its members as {s, ms, ...}, of which only
    [s] and [ms] are modelled. *)
Definition time_units := [Seconds; Milliseconds].

(** Numbers are modelled as rationals: every magnitude that occurs in the
    facts proved below is a small integer, exact both in [Q] and in
    binary floating point. *)
Inductive value :=
| VNumber (q : Q)
| VPercentage (q : Q)
| VAngle (q : Q) (u : angle_unit)
| VTime (q : Q) (u : time_unit)
| VString (s : string)
| VVec4 (a b c d : Q)
| VEnum (enum : string) (ordinal : Z)        (* EnumMember *)
| VFlag (flag : string) (mask : Z)           (* FlagMember *)
| VElement (id : nat)                         (* an Element handle *)
| VProperty (element : nat) (name : string)  (* the Property object [get] returns *)
| VUnaryOp (op : string) (operand : value)
| VBinOp (op : string) (lhs rhs : value)
| VCall (fn : string) (args : list value).

(** Type tags of property definitions ([Property.types]). *)
Inductive ty :=
| TNumber | TPercentage | TAngle | TTime | TString | TVec4
| TEnumType (name : string) | TFlagType (name : string)
| TElement | TExpression.

(** The enum and flag types registered by [drawables.py]. *)
Definition enum_members (name : string) : list (string * Z) :=
  if String.eqb name "TextAnchor" then
    [("Left", 1%Z); ("CenterX", 2%Z); ("Right", 4%Z); ("Top", 8%Z);
     ("CenterY", 16%Z); ("Bottom", 32%Z); ("Center", 18%Z); ("Default", 18%Z)]%string
  else if String.eqb name "TextAlignment" then
    [("Left", 1%Z); ("Center", 2%Z); ("Right", 3%Z); ("Default", 1%Z)]%string
  else [].

(** Modelled from the spec: the type a definition infers from its value
    (the tag of a literal; expressions carry no static type). *)
Definition type_tag (v : value) : ty :=
  match v with
  | VNumber _ => TNumber
  | VPercentage _ => TPercentage
  | VAngle _ _ => TAngle
  | VTime _ _ => TTime
  | VString _ => TString
  | VVec4 _ _ _ _ => TVec4
  | VEnum e _ => TEnumType e
  | VFlag f _ => TFlagType f
  | VElement _ => TElement
  | _ => TExpression
  end.

(** ** Elements and their property tables *)

Inductive cls :=
| Scene | Drawable | Rectangle | Circle | Ellipse | Arc | Line | Image | Text
| Animation.

(** [element.__class__.__name__] *)
Definition cls_name (c : cls) : string :=
  match c with
  | Scene => "Scene" | Drawable => "Drawable" | Rectangle => "Rectangle"
  | Circle => "Circle" | Ellipse => "Ellipse" | Arc => "Arc" | Line => "Line"
  | Image => "Image" | Text => "Text" | Animation => "Animation"
  end.

(** [isinstance(element, Drawable)] *)
Definition is_drawable (c : cls) : bool :=
  match c with
  | Drawable | Rectangle | Circle | Ellipse | Arc | Line | Image | Text => true
  | _ => false
  end.

(** [isinstance(element, Animation)] *)
Definition is_animation (c : cls) : bool :=
  match c with Animation => true | _ => false end.

(** [isinstance(element, BaseDrawable)]; the root [Scene] is the canvas
    container of the spec, a [BaseDrawable] that is not a [Drawable]. *)
Definition is_base_drawable (c : cls) : bool :=
  match c with Scene => true | Animation => false | _ => true end.

(** [Element.list_element_types()]: the registered concrete types. *)
Definition element_types : list cls :=
  [Scene; Drawable; Rectangle; Circle; Ellipse; Arc; Line; Image; Text; Animation].

Record prop := mkProp {
  p_name : string;
  p_value : value;
  p_types : list ty;
  p_readonly : bool;
  p_constant : bool;
  p_relative : option string
}.

Record elem := mkElem {
  e_cls : cls;
  e_parent : option nat;
  e_children : list nat;
  e_props : list prop
}.

(** The scene tree as an arena: element [i] is the [i]-th entry; the parent
    back-reference is an index. *)
Definition heap := list elem.

(** An entry of a reported cycle: a Property object, i.e. a property of one
    element; its [.name] is the property name. *)
Record prop_ref := mkRef { ref_element : nat; ref_name : string }.

Definition prop_ref_eqb (a b : prop_ref) : bool :=
  Nat.eqb (ref_element a) (ref_element b) && String.eqb (ref_name a) (ref_name b).

Inductive py_error :=
| SceneBuilderError (msg : string)
| NotImplementedError
| KeyError (key : string)
| IndexError
| AttributeError
| ValueError
| AssertionError
| TypeError (msg : string)
| FileNotFoundError (msg : string)
| ElementPropertyDefinedError (msg : string)
| ElementPropertyReadonlyError (msg : string)
| ElementPropertyConstantError (msg : string)
| CircularReferenceError (msg : string) (paths : list (list prop_ref))
| EvaluationError (msg : string)
| RecursionError.

Inductive result (A : Type) :=
| Ok (a : A)
| Err (e : py_error).
Arguments Ok {A} a.
Arguments Err {A} e.

Definition rbind {A B} (r : result A) (k : A -> result B) : result B :=
  match r with Ok a => k a | Err e => Err e end.

Notation "x <-? r ;; k" := (rbind r (fun x => k))
  (at level 61, r at next level, right associativity).

(** ** Syntax tree (the node classes of [parser]) *)

(** A source span: [token.span] is [((line, col), (line, col))]. *)
Record token := mkToken { tb_line : nat; tb_col : nat; te_line : nat; te_col : nat }.

(** [Define.name], [Assign.name] and [MemberAccess.member] are [Name] nodes;
    the builder asserts so and uses their identifier, kept here directly.
    [Scene] is the [Create] node of the root type that a file parses to. *)
Inductive node :=
| NInclude (path : list string) (tok : option token)
| NTemplate (name : string) (inherit : option string) (children : list node)
            (tok : option token)
| NScene (children : list node) (tok : option token)
| NCreate (element : string) (name : option string) (children : list node)
          (tok : option token)
| NDefine (name : string) (val : node) (tok : option token)
| NAssign (name : string) (val : node) (tok : option token)
| NMemberAccess (val : node) (member : string) (tok : option token)
| NUnaryOp (op : string) (operand : node) (tok : option token)
| NBinOp (op : string) (lhs rhs : node) (tok : option token)
| NNumber (q : Q) (unit : option string) (tok : option token)
| NStringLit (s : string) (tok : option token)
| NCall (name : string) (args : list node) (tok : option token)
| NName (name : string) (tok : option token).

(** A [Template] node as stored in the template registry. *)
Record template := mkTemplate {
  t_name : string;
  t_inherit : option string;
  t_children : list node;
  t_tok : option token
}.

(** The values of [self.templates]: an element type or a [Template]. *)
Inductive tentry :=
| TType (c : cls)
| TTemplate (t : template).

(** Instrumentation (not in the Python code): the builder appends an event
    when it invokes an element's [on_ready] hook from [_apply_template] and
    when [_apply_template] builds a directive of a template against an
    element. *)
Inductive event :=
| EvReady (element : nat)
| EvDirective (element : nat) (template_name : string) (directive : node).

Definition ev_element (ev : event) : nat :=
  match ev with EvReady e => e | EvDirective e _ _ => e end.

(** The builder's state: the attributes of [SceneBuilder] and the scene tree.
    Stacks ([_elements], [_types]) keep their top at the head; the
    [search_paths] and [_including] lists keep Python's order (last element
    appended last); [opened] logs the files [_include] opens. *)
Record state := mkState {
  templates : list (string * tentry);
  elements : list nat;
  types : list ty;
  search_paths : list string;
  including : list string;
  included : list string;
  heap_of : heap;
  opened : list string;
  log : list event
}.

(** Python values returned by the [_build_*] visitors. *)
Inductive pyval :=
| PNone
| PElement (id : nat)
| PValue (v : value).

Section Model.

(** The collaborators the builder is parametric in.
    - [type_ok types v]: whether [Element.set] accepts [v] for a property
      whose declared types are [types] (otherwise it raises [TypeError]);
    - [function_defined] and [call_function]: the function registry
      [functions] (out of scope of the spec: an opaque name to callable map);
    - [isfile], [read_scene], [abspath], [dirname], [path_join]: the
      filesystem collaborator and [os.path]; [read_scene f] is the
      top-level directive list of the [Scene] node that [parse] returns for
      the text of [f] ([None] when [open] fails);
    - [scene_width], [scene_height]: the concrete canvas size of [Scene]. *)
Variable type_ok : list ty -> value -> bool.
Variable function_defined : string -> bool.
Variable call_function : string -> list value -> result value.
Variable isfile : string -> bool.
Variable read_scene : string -> option (list node).
Variable abspath : string -> string.
Variable dirname : string -> string.
Variable path_join : string -> string -> string.
Variable scene_width scene_height : Q.

(** ** The element property table (Modelled from the spec: [Element] in
    [elements/element.py]) *)

Fixpoint replace_nth {A} (l : list A) (n : nat) (x : A) : list A :=
  match l, n with
  | [], _ => []
  | _ :: l', 0 => x :: l'
  | y :: l', S n' => y :: replace_nth l' n' x
  end.

Fixpoint find_prop (name : string) (ps : list prop) : option prop :=
  match ps with
  | [] => None
  | p :: ps' => if String.eqb (p_name p) name then Some p else find_prop name ps'
  end.

Fixpoint replace_prop_value (name : string) (v : value) (ps : list prop) : list prop :=
  match ps with
  | [] => []
  | p :: ps' =>
      if String.eqb (p_name p) name
      then mkProp (p_name p) v (p_types p) (p_readonly p) (p_constant p) (p_relative p) :: ps'
      else p :: replace_prop_value name v ps'
  end.

Definition elem_of (h : heap) (e : nat) : result elem :=
  match nth_error h e with Some x => Ok x | None => Err AttributeError end.

Definition with_props (x : elem) (ps : list prop) : elem :=
  mkElem (e_cls x) (e_parent x) (e_children x) ps.

(** The property [name] stored on element [e] itself (no ancestor search). *)
Definition lookup_prop (h : heap) (e : nat) (name : string) : option prop :=
  match nth_error h e with Some x => find_prop name (e_props x) | None => None end.

(** Modelled from the spec: [Element.get(name)], the Property object, or
    [KeyError] when [name] is absent on this element. *)
Definition get (h : heap) (e : nat) (name : string) : result value :=
  match lookup_prop h e name with
  | Some _ => Ok (VProperty e name)
  | None => Err (KeyError name)
  end.

(** Modelled from the spec: [Element.define(name, value, *types, readonly,
    constant, relative)]; fails if [name] exists, evaluates nothing. *)
Definition define (h : heap) (e : nat) (name : string) (v : value)
    (tys : option (list ty)) (readonly constant : bool) (relative : option string)
    : result heap :=
  x <-? elem_of h e ;;
  match find_prop name (e_props x) with
  | Some _ => Err (ElementPropertyDefinedError ("Property " ++ repr name ++ " already defined"))
  | None =>
      let tys' := match tys with Some t => t | None => [type_tag v] end in
      Ok (replace_nth h e (with_props x (e_props x ++ [mkProp name v tys' readonly constant relative])))
  end.

Definition total_props (h : heap) : nat :=
  fold_right (fun x n => length (e_props x) + n) 0 h.

(** The part of the visitation stack from the first occurrence of [r]. *)
Fixpoint drop_until (r : prop_ref) (stack : list prop_ref) : list prop_ref :=
  match stack with
  | [] => []
  | s :: rest => if prop_ref_eqb s r then stack else drop_until r rest
  end.

(** Modelled from the spec: the dependency walk of cycle detection.  It
    follows the property references of an expression depth first, keeping
    the stack of visited (element, property) pairs; re-entering a pair on the
    stack yields the cycle, from the pair's first occurrence back to the
    repeat. *)
Fixpoint find_cycle (fuel : nat) (h : heap) (stack : list prop_ref) (v : value)
    {struct fuel} : option (list prop_ref) :=
  match fuel with
  | 0 => None
  | S f =>
      let fix go (v : value) : option (list prop_ref) :=
        match v with
        | VProperty e n =>
            let r := mkRef e n in
            if existsb (prop_ref_eqb r) stack then Some (drop_until r stack ++ [r])
            else match lookup_prop h e n with
                 | Some p => find_cycle f h (stack ++ [r]) (p_value p)
                 | None => None
                 end
        | VUnaryOp _ a => go a
        | VBinOp _ a b => match go a with Some c => Some c | None => go b end
        | VCall _ args =>
            (fix go_list (l : list value) : option (list prop_ref) :=
               match l with
               | [] => None
               | a :: l' => match go a with Some c => Some c | None => go_list l' end
               end) args
        | _ => None
        end
      in go v
  end.

Definition circular_message : string := "Circular reference".

(** The heap with the value of property [name] of element [e] (whose
    record is [x]) replaced by [v]. *)
Definition store (h : heap) (e : nat) (x : elem) (name : string) (v : value) : heap :=
  replace_nth h e (with_props x (replace_prop_value name v (e_props x))).

(** The cycle, if any, that the value [v] of property [name] of [e] closes
    in [h]; each step visits a new (element, property) pair, so the number
    of properties bounds the depth. *)
Definition cycle_from (h : heap) (e : nat) (name : string) (v : value) : option (list prop_ref) :=
  find_cycle (S (total_props h)) h [mkRef e name] v.

(** Modelled from the spec: [Element.set(name, value)]: fails if [name] is
    absent, if it is [ReadOnly], if it is [Constant], if the value's type tag
    is refused, or if the new expression closes a cycle reachable from this
    property; otherwise stores the expression without evaluating it. *)
Definition set (h : heap) (e : nat) (name : string) (v : value) : result heap :=
  x <-? elem_of h e ;;
  match find_prop name (e_props x) with
  | None => Err (KeyError name)
  | Some p =>
      if p_readonly p then Err (ElementPropertyReadonlyError (repr name))
      else if p_constant p then
        Err (ElementPropertyConstantError ("Cannot assign to constant property " ++ repr name))
      else if negb (type_ok (p_types p) v) then
        Err (TypeError ("Incompatible value for property " ++ repr name))
      else
        let h' := store h e x name v in
        match cycle_from h' e name v with
        | Some path => Err (CircularReferenceError circular_message [path])
        | None => Ok h'
        end
  end.

(** Modelled from the spec: the unit-coercion table of [BinOp] evaluation. *)
Definition binop (op : string) (a b : value) : result value :=
  let scale (mk : Q -> value) (x y : Q) :=
    if String.eqb op "*" then Ok (mk (x * y)%Q)
    else if String.eqb op "/" then
      (if Qeq_bool y 0 then Err (EvaluationError "division by zero") else Ok (mk (x / y)%Q))
    else Err (EvaluationError ("unsupported operand types for " ++ op)) in
  let additive (mk : Q -> value) (x y : Q) :=
    if String.eqb op "+" then Ok (mk (x + y)%Q)
    else if String.eqb op "-" then Ok (mk (x - y)%Q)
    else Err (EvaluationError ("unsupported operand types for " ++ op)) in
  match a, b with
  | VNumber x, VNumber y =>
      if String.eqb op "+" then Ok (VNumber (x + y)%Q)
      else if String.eqb op "-" then Ok (VNumber (x - y)%Q)
      else scale VNumber x y
  | VPercentage x, VPercentage y => additive VPercentage x y
  | VAngle x u, VAngle y u' =>
      if angle_unit_value u =? angle_unit_value u' then additive (fun q => VAngle q u) x y
      else Err (EvaluationError "mismatched angle units")
  | VTime x u, VTime y u' =>
      if time_unit_value u =? time_unit_value u' then additive (fun q => VTime q u) x y
      else Err (EvaluationError "mismatched time units")
  | VPercentage x, VNumber y => scale VPercentage x y
  | VAngle x u, VNumber y => scale (fun q => VAngle q u) x y
  | VTime x u, VNumber y => scale (fun q => VTime q u) x y
  | _, _ => Err (EvaluationError ("unsupported operand types for " ++ op))
  end%string.

(** Modelled from the spec: unary operators keep the operand's unit. *)
Definition unaryop (op : string) (a : value) : result value :=
  let neg := String.eqb op "-" in
  if negb (neg || String.eqb op "+") then Err (EvaluationError ("bad operator " ++ op))
  else
    let f q := if neg then (- q)%Q else q in
    match a with
    | VNumber x => Ok (VNumber (f x))
    | VPercentage x => Ok (VPercentage (f x))
    | VAngle x u => Ok (VAngle (f x) u)
    | VTime x u => Ok (VTime (f x) u)
    | _ => Err (EvaluationError ("bad operand for unary " ++ op))
    end.

(** Modelled from the spec: [eval(expr, element)].  Literals evaluate to
    themselves; a Property object evaluates its stored expression with the
    pair pushed on the visitation stack (re-entering a pair is a circular
    reference); a [Percentage] result of a property with a relative
    dimension resolves against that same-named property of the parent. *)
Fixpoint eval (fuel : nat) (h : heap) (stack : list prop_ref) (v : value)
    {struct fuel} : result value :=
  match fuel with
  | 0 => Err RecursionError
  | S f =>
      let fix go (v : value) : result value :=
        match v with
        | VProperty e n =>
            let r := mkRef e n in
            if existsb (prop_ref_eqb r) stack then
              Err (CircularReferenceError circular_message [drop_until r stack ++ [r]])
            else
              x <-? elem_of h e ;;
              match find_prop n (e_props x) with
              | None => Err (KeyError n)
              | Some p =>
                  y <-? eval f h (stack ++ [r]) (p_value p) ;;
                  match y, p_relative p, e_parent x with
                  | VPercentage q, Some rel, Some par =>
                      base <-? eval f h (stack ++ [r]) (VProperty par rel) ;;
                      match base with
                      | VNumber b => Ok (VNumber (b * q / 100)%Q)
                      | _ => Err (EvaluationError "relative dimension is not a number")
                      end
                  | _, _, _ => Ok y
                  end
              end
        | VUnaryOp op a => x <-? go a ;; unaryop op x
        | VBinOp op a b => x <-? go a ;; y <-? go b ;; binop op x y
        | VCall fn args =>
            xs <-? (fix go_list (l : list value) : result (list value) :=
                      match l with
                      | [] => Ok []
                      | a :: l' => x <-? go a ;; xs <-? go_list l' ;; Ok (x :: xs)
                      end) args ;;
            call_function fn xs
        | _ => Ok v
        end
      in go v
  end.

(** Modelled from the spec: [Element.add(child)] appends the child to the
    ordered children and sets its parent back-reference. *)
Definition element_add (h : heap) (parent child : nat) : result heap :=
  px <-? elem_of h parent ;;
  cx <-? elem_of h child ;;
  let h1 := replace_nth h parent
              (mkElem (e_cls px) (e_parent px) (e_children px ++ [child]) (e_props px)) in
  Ok (replace_nth h1 child (mkElem (e_cls cx) (Some parent) (e_children cx) (e_props cx))).

(** [add] as the parent's class defines it: [BaseDrawable.add] calls
    [super().add(element)] and then accepts only a [Drawable] or an
    [Animation], raising [NotImplementedError] otherwise. *)
Definition add (h : heap) (parent child : nat) : result heap :=
  px <-? elem_of h parent ;;
  cx <-? elem_of h child ;;
  h' <-? element_add h parent child ;;
  if is_base_drawable (e_cls px) then
    if is_drawable (e_cls cx) then Ok h'
    else if is_animation (e_cls cx) then Ok h'
    else Err NotImplementedError
  else Ok h'.

(** ** The [on_ready] hooks ([elements/drawables.py]) *)

Fixpoint list_index (x : nat) (l : list nat) : result nat :=
  match l with
  | [] => Err ValueError
  | y :: l' => if Nat.eqb x y then Ok 0 else (i <-? list_index x l' ;; Ok (S i))
  end.

Definition num (z : Z) : value := VNumber (inject_Z z).
Definition pct (z : Z) : value := VPercentage (inject_Z z).
Definition vec4 (a b c d : Z) : value :=
  VVec4 (inject_Z a) (inject_Z b) (inject_Z c) (inject_Z d).

(** Modelled from the spec: [Scene.on_ready] declares the canvas's concrete
    (non-relative) width and height. *)
Definition on_ready_Scene (h : heap) (e : nat) : result heap :=
  h <-? define h e "width" (VNumber scene_width) None false false None ;;
  define h e "height" (VNumber scene_height) None false false None.

(** [Drawable.on_ready] *)
Definition on_ready_Drawable (h : heap) (e : nat) : result heap :=
  x <-? elem_of h e ;;
  par <-? (match e_parent x with Some p => Ok p | None => Err AttributeError end) ;;
  px <-? elem_of h par ;;
  i <-? list_index e (e_children px) ;;
  h <-? define h e "index" (num (Z.of_nat i)) None true true None ;;
  h <-? define h e "x" (num 0) None false false (Some "width"%string) ;;
  h <-? define h e "y" (num 0) None false false (Some "height"%string) ;;
  h <-? define h e "width" (pct 100) None false false (Some "width"%string) ;;
  define h e "height" (pct 100) None false false (Some "height"%string).

(** The color, fill and outline defaults shared by the shapes. *)
Definition define_color_fill (h : heap) (e : nat) : result heap :=
  h <-? define h e "color" (vec4 255 255 255 255) None false false None ;;
  color <-? get h e "color" ;;
  define h e "fill" color None false false None.

Definition define_outline (h : heap) (e : nat) : result heap :=
  h <-? define h e "outline" (vec4 0 0 0 0) (Some [TVec4]) false false None ;;
  define h e "outline_width" (num 1) None false false None.

(** [Rectangle.on_ready] *)
Definition on_ready_Rectangle (h : heap) (e : nat) : result heap :=
  h <-? on_ready_Drawable h e ;;
  h <-? define_color_fill h e ;;
  define_outline h e.

(** [Circle.on_ready] *)
Definition on_ready_Circle (h : heap) (e : nat) : result heap :=
  h <-? on_ready_Drawable h e ;;
  width <-? get h e "width" ;;
  h <-? define h e "center_x" (VBinOp "-" (pct 50) (VBinOp "/" width (num 2))) None false false (Some "width"%string) ;;
  height <-? get h e "height" ;;
  h <-? define h e "center_y" (VBinOp "-" (pct 50) (VBinOp "/" height (num 2))) None false false (Some "height"%string) ;;
  h <-? define h e "diameter" (pct 100) None false false (Some "width"%string) ;;
  diameter <-? get h e "diameter" ;;
  h <-? define h e "radius" (VBinOp "/" diameter (num 2)) None false false (Some "width"%string) ;;
  center_x <-? get h e "center_x" ;;
  width <-? get h e "width" ;;
  h <-? set h e "x" (VBinOp "-" center_x (VBinOp "/" width (num 2))) ;;
  center_y <-? get h e "center_y" ;;
  height <-? get h e "height" ;;
  h <-? set h e "y" (VBinOp "-" center_y (VBinOp "/" height (num 2))) ;;
  radius <-? get h e "radius" ;;
  h <-? set h e "width" (VBinOp "*" radius (num 2)) ;;
  radius <-? get h e "radius" ;;
  h <-? set h e "height" (VBinOp "*" radius (num 2)) ;;
  h <-? define_color_fill h e ;;
  define_outline h e.

(** [Ellipse.on_ready] *)
Definition on_ready_Ellipse (h : heap) (e : nat) : result heap :=
  h <-? on_ready_Drawable h e ;;
  width <-? get h e "width" ;;
  h <-? define h e "center_x" (VBinOp "-" (pct 50) (VBinOp "/" width (num 2))) None false false (Some "width"%string) ;;
  height <-? get h e "height" ;;
  h <-? define h e "center_y" (VBinOp "-" (pct 50) (VBinOp "/" height (num 2))) None false false (Some "height"%string) ;;
  h <-? define h e "diameter" (pct 100) None false false (Some "width"%string) ;;
  diameter <-? get h e "diameter" ;;
  h <-? define h e "radius" (VBinOp "/" diameter (num 2)) None false false (Some "width"%string) ;;
  diameter <-? get h e "diameter" ;;
  h <-? define h e "diameter_x" diameter None false false (Some "width"%string) ;;
  diameter <-? get h e "diameter" ;;
  h <-? define h e "diameter_y" diameter None false false (Some "height"%string) ;;
  diameter_x <-? get h e "diameter_x" ;;
  h <-? define h e "radius_x" (VBinOp "/" diameter_x (num 2)) None false false (Some "width"%string) ;;
  diameter_y <-? get h e "diameter_y" ;;
  h <-? define h e "radius_y" (VBinOp "/" diameter_y (num 2)) None false false (Some "height"%string) ;;
  center_x <-? get h e "center_x" ;;
  width <-? get h e "width" ;;
  h <-? set h e "x" (VBinOp "-" center_x (VBinOp "/" width (num 2))) ;;
  center_y <-? get h e "center_y" ;;
  height <-? get h e "height" ;;
  h <-? set h e "y" (VBinOp "-" center_y (VBinOp "/" height (num 2))) ;;
  radius_x <-? get h e "radius_x" ;;
  h <-? set h e "width" (VBinOp "*" radius_x (num 2)) ;;
  radius_y <-? get h e "radius_y" ;;
  h <-? set h e "height" (VBinOp "*" radius_y (num 2)) ;;
  h <-? define_color_fill h e ;;
  define_outline h e.

(** [Arc.on_ready] *)
Definition on_ready_Arc (h : heap) (e : nat) : result heap :=
  h <-? on_ready_Ellipse h e ;;
  h <-? define h e "start_angle" (VAngle 0 Degrees) None false false None ;;
  define h e "end_angle" (VAngle 360 Degrees) None false false None.

(** [Line.on_ready] *)
Definition on_ready_Line (h : heap) (e : nat) : result heap :=
  h <-? on_ready_Drawable h e ;;
  h <-? define h e "x1" (num 0) None false false (Some "width"%string) ;;
  h <-? define h e "y1" (num 0) None false false (Some "height"%string) ;;
  h <-? define h e "x2" (num 0) None false false (Some "width"%string) ;;
  h <-? define h e "y2" (num 0) None false false (Some "height"%string) ;;
  x1 <-? get h e "x1" ;;
  h <-? set h e "x" x1 ;;
  y1 <-? get h e "y1" ;;
  h <-? set h e "y" y1 ;;
  h <-? define_color_fill h e ;;
  set h e "width" (num 1).

(** [Image.on_ready] *)
Definition on_ready_Image (h : heap) (e : nat) : result heap :=
  h <-? on_ready_Drawable h e ;;
  define h e "filename" (VString "") None false true None.

(** [Text.on_ready] *)
Definition on_ready_Text (h : heap) (e : nat) : result heap :=
  h <-? on_ready_Drawable h e ;;
  h <-? set h e "x" (pct 50) ;;
  h <-? set h e "y" (pct 50) ;;
  h <-? define h e "text" (VString "") None false true None ;;
  h <-? define h e "font" (VString "arial") None false true None ;;
  h <-? define h e "font_size" (num 32) None false false None ;;
  h <-? define h e "anchor" (VFlag "TextAnchor" 18) None false true None ;;
  h <-? define h e "alignment" (VEnum "TextAlignment" 1) None false true None ;;
  define_color_fill h e.

(** [element.on_ready()]: dispatch on the element's own class.  The
    [Element] base hook (used by [Animation] here) declares nothing. *)
Definition on_ready (h : heap) (e : nat) : result heap :=
  x <-? elem_of h e ;;
  match e_cls x with
  | Scene => on_ready_Scene h e
  | Drawable => on_ready_Drawable h e
  | Rectangle => on_ready_Rectangle h e
  | Circle => on_ready_Circle h e
  | Ellipse => on_ready_Ellipse h e
  | Arc => on_ready_Arc h e
  | Line => on_ready_Line h e
  | Image => on_ready_Image h e
  | Text => on_ready_Text h e
  | Animation => Ok h
  end.

(** ** The builder monad *)

Definition M (A : Type) := state -> result (A * state).

Definition ret {A} (a : A) : M A := fun st => Ok (a, st).
Definition fail {A} (e : py_error) : M A := fun _ => Err e.
Definition bind {A B} (m : M A) (k : A -> M B) : M B :=
  fun st => match m st with Ok (a, st') => k a st' | Err e => Err e end.
Definition get_state : M state := fun st => Ok (st, st).
Definition put_state (st : state) : M unit := fun _ => Ok (tt, st).
Definition lift {A} (r : result A) : M A :=
  fun st => match r with Ok a => Ok (a, st) | Err e => Err e end.

Notation "x <- m ;; k" := (bind m (fun x => k))
  (at level 61, m at next level, right associativity).
Notation "m ;;; k" := (bind m (fun _ => k))
  (at level 61, right associativity).

Definition upd_templates (r : list (string * tentry)) (st : state) : state :=
  mkState r (elements st) (types st) (search_paths st) (including st)
    (included st) (heap_of st) (opened st) (log st).
Definition upd_elements (l : list nat) (st : state) : state :=
  mkState (templates st) l (types st) (search_paths st) (including st)
    (included st) (heap_of st) (opened st) (log st).
Definition upd_types (l : list ty) (st : state) : state :=
  mkState (templates st) (elements st) l (search_paths st) (including st)
    (included st) (heap_of st) (opened st) (log st).
Definition upd_search_paths (l : list string) (st : state) : state :=
  mkState (templates st) (elements st) (types st) l (including st)
    (included st) (heap_of st) (opened st) (log st).
Definition upd_including (l : list string) (st : state) : state :=
  mkState (templates st) (elements st) (types st) (search_paths st) l
    (included st) (heap_of st) (opened st) (log st).
Definition upd_included (l : list string) (st : state) : state :=
  mkState (templates st) (elements st) (types st) (search_paths st)
    (including st) l (heap_of st) (opened st) (log st).
Definition upd_heap (h : heap) (st : state) : state :=
  mkState (templates st) (elements st) (types st) (search_paths st)
    (including st) (included st) h (opened st) (log st).
Definition upd_opened (l : list string) (st : state) : state :=
  mkState (templates st) (elements st) (types st) (search_paths st)
    (including st) (included st) (heap_of st) l (log st).
Definition upd_log (l : list event) (st : state) : state :=
  mkState (templates st) (elements st) (types st) (search_paths st)
    (including st) (included st) (heap_of st) (opened st) l.

Definition modify (f : state -> state) : M unit := fun st => Ok (tt, f st).

Definition record (ev : event) : M unit := modify (fun st => upd_log (log st ++ [ev]) st).

Definition ty_eq_dec (a b : ty) : {a = b} + {a <> b}.
Proof. decide equality; apply string_dec. Defined.

(** [_push_element] / [_push_type]: push on entry, pop and assert the
    popped object is the pushed one on exit. *)
Definition push_element (e : nat) : M unit :=
  modify (fun st => upd_elements (e :: elements st) st).
Definition pop_element (e : nat) : M unit :=
  fun st => match elements st with
            | e' :: rest => if Nat.eqb e e' then Ok (tt, upd_elements rest st)
                            else Err AssertionError
            | [] => Err IndexError
            end.
Definition push_type (t : ty) : M unit :=
  modify (fun st => upd_types (t :: types st) st).
Definition pop_type (t : ty) : M unit :=
  fun st => match types st with
            | t' :: rest => if ty_eq_dec t t' then Ok (tt, upd_types rest st)
                            else Err AssertionError
            | [] => Err IndexError
            end.

(** [self._element] *)
Definition cur_element : M nat :=
  fun st => match elements st with e :: _ => Ok (e, st) | [] => Err IndexError end.

Definition class_of (e : nat) : M cls :=
  fun st => match elem_of (heap_of st) e with
            | Ok x => Ok (e_cls x, st)
            | Err err => Err err
            end.

(** [SceneBuilder._create_error] *)
Definition create_error (message after : string) (tok : option token) : py_error :=
  SceneBuilderError
    (match tok with
    | Some t =>
        let base := message ++ " at " ++ show_nat (tb_line t) ++ ":" ++ show_nat (tb_col t)
                    ++ " to " ++ show_nat (te_line t) ++ ":" ++ show_nat (te_col t) in
        if String.eqb after "" then base else base ++ nl ++ after
    | None => if String.eqb after "" then message else message ++ nl ++ after
    end)%string.

Fixpoint lookup_template (name : string) (reg : list (string * tentry)) : option tentry :=
  match reg with
  | [] => None
  | (k, v) :: reg' => if String.eqb k name then Some v else lookup_template name reg'
  end.

(** [template.inherit or "Drawable"] *)
Definition inherit_or_default (t : template) : string :=
  if truthy (t_inherit t) then match t_inherit t with Some s => s | None => "" end
  else "Drawable".

(** [SceneBuilder._get_element_type]; the recursive call passes no token.
    A chain of templates without a cycle has at most one link per registry
    entry, so the recursion depth is bounded by the registry's size.  The
    budget does not model the Python interpreter's own recursion limit,
    which also stops an acyclic inherit chain deeper than the stack allows:
    the model describes the chains that fit on Python's stack. *)
Fixpoint get_element_type_aux (fuel : nat) (reg : list (string * tentry)) (name : string)
    (tok : option token) : result cls :=
  match fuel with
  | 0 => Err RecursionError
  | S f =>
      match lookup_template name reg with
      | None => Err (create_error ("Creating undefined " ++ repr name ++ " template") "" tok)
      | Some (TTemplate t) => get_element_type_aux f reg (inherit_or_default t) None
      | Some (TType c) => Ok c
      end
  end.

Definition get_element_type (reg : list (string * tentry)) (name : string)
    (tok : option token) : result cls :=
  get_element_type_aux (S (length reg)) reg name tok.

(** [SceneBuilder._get_property]: walk the ancestor chain. *)
Fixpoint get_property_walk (fuel : nat) (h : heap) (e : option nat) (name : string)
    : result (option value) :=
  match e with
  | None => Ok None
  | Some e' =>
      match fuel with
      | 0 => Err RecursionError
      | S f =>
          match get h e' name with
          | Ok v => Ok (Some v)
          | Err (KeyError _) => x <-? elem_of h e' ;; get_property_walk f h (e_parent x) name
          | Err err => Err err
          end
      end
  end.

Definition _get_property (h : heap) (e : nat) (name : string) (tok : option token)
    : result value :=
  match nth_error h e with
  | None => Err AssertionError
  | Some _ =>
      r <-? get_property_walk (S (length h)) h (Some e) name ;;
      match r with
      | Some v => Ok v
      | None => Err (create_error ("Undefined property " ++ repr name) "" tok)
      end
  end.

(** [SceneBuilder._find_scene_file] *)
Definition module_file (path : list string) : result string :=
  match path with
  | [] => Err (TypeError "join() missing 1 required positional argument: 'a'")
  | p :: ps => Ok (fold_left path_join ps p ++ ".anim")%string
  end.

Fixpoint first_existing (p : string) (dirs : list string) : option string :=
  match dirs with
  | [] => None
  | d :: ds => if isfile (path_join d p) then Some (path_join d p) else first_existing p ds
  end.

Definition tried_paths (p : string) (dirs : list string) : string :=
  join_with nl (map (fun d => "- " ++ path_join d p)%string dirs).

Definition _find_scene_file (sp : list string) (path : list string) : result string :=
  p <-? module_file path ;;
  match first_existing p (rev sp) with
  | Some f => Ok f
  | None =>
      Err (FileNotFoundError ("Failed including " ++ join_with "." path ++ nl
                              ++ "Tried..." ++ nl ++ tried_paths p (rev sp)))
  end.

(** [self._is_including()] *)
Definition is_including (st : state) : bool := negb (Nat.eqb (length (including st)) 0).

(** [repr(_units)], the unit suffixes the parser knows (Modelled from the
    spec: percent, angle and duration units). *)
Definition units_repr : string := "('%', 'deg', 'rad', 's', 'ms')".

Definition expect_value (r : pyval) : M value :=
  match r with PValue v => ret v | _ => fail AssertionError end.

(** A request to the builder: visit a node, apply a template to an element,
    or include a file. *)
Inductive call :=
| CBuild (n : node)
| CApply (element : nat) (template : string) (tok : option token)
| CInclude (filename : string).

(** [for child in ...: pass] over a list of nodes. *)
Fixpoint for_each (k : node -> M unit) (ns : list node) : M unit :=
  match ns with
  | [] => ret tt
  | n :: ns' => k n ;;; for_each k ns'
  end.

Section Visitors.

(** The builder one recursion level down. *)
Variable rec : call -> M pyval.

Definition build_ (n : node) : M pyval := rec (CBuild n).

(** [SceneBuilder._build_children], its results discarded. *)
Definition build_children (ns : list node) : M unit :=
  for_each (fun n => _ <- build_ n ;; ret tt) ns.

(** [SceneBuilder._apply_template(element, template)] for a template name. *)
Definition _apply_template (el : nat) (name : string) (tok : option token) : M pyval :=
  st <- get_state ;;
  match lookup_template name (templates st) with
  | None => fail (create_error ("Creating undefined " ++ repr name ++ " template") "" tok)
  | Some (TTemplate t) =>
      push_element el ;;;
      _ <- rec (CApply el (inherit_or_default t) tok) ;;
      for_each (fun c => record (EvDirective el (t_name t) c) ;;; _ <- build_ c ;; ret tt)
               (t_children t) ;;;
      pop_element el ;;;
      ret PNone
  | Some (TType _) =>
      record (EvReady el) ;;;
      st <- get_state ;;
      h <- lift (on_ready (heap_of st) el) ;;
      modify (upd_heap h) ;;;
      ret PNone
  end.

(** [SceneBuilder._include] *)
Definition _include (filename : string) : M pyval :=
  let fn := abspath filename in
  st <- get_state ;;
  if mem_string fn (including st) then ret PNone
  else if mem_string fn (included st) then ret PNone
  else
    modify (fun st => upd_search_paths (search_paths st ++ [dirname fn]) st) ;;;
    modify (fun st => upd_including (including st ++ [fn]) st) ;;;
    match read_scene fn with
    | None => fail (FileNotFoundError fn)
    | Some ch =>
        modify (fun st => upd_opened (opened st ++ [fn]) st) ;;;
        _ <- build_ (NScene ch None) ;;
        modify (fun st => upd_including (removelast (including st)) st) ;;;
        modify (fun st => upd_included (fn :: included st) st) ;;;
        modify (fun st => upd_search_paths (removelast (search_paths st)) st) ;;;
        ret PNone
    end.

(** [SceneBuilder._build_Include] *)
Definition _build_Include (path : list string) (tok : option token) : M pyval :=
  st <- get_state ;;
  match _find_scene_file (search_paths st) path with
  | Ok f => _ <- rec (CInclude f) ;; ret PNone
  | Err (FileNotFoundError m) =>
      let (message, after) := partition_nl m in fail (create_error message after tok)
  | Err e => fail e
  end.

(** [SceneBuilder._build_Create] *)
Definition _build_Create (element : string) (name : option string) (ch : list node)
    (tok : option token) : M pyval :=
  if truthy name then fail NotImplementedError else
  st <- get_state ;;
  c <- lift (get_element_type (templates st) element tok) ;;
  (* element = element_type(); element.on_init() *)
  st <- get_state ;;
  let el := length (heap_of st) in
  modify (upd_heap (heap_of st ++ [mkElem c None [] []])) ;;;
  st <- get_state ;;
  match elements st with
  | parent :: _ =>
      pc <- class_of parent ;;
      match add (heap_of st) parent el with
      | Ok h => modify (upd_heap h)   (* parent.on_element(element) declares nothing *)
      | Err NotImplementedError =>
          fail (create_error ("Cannot add " ++ cls_name c ++ " to " ++ cls_name pc) "" tok)
      | Err e => fail e
      end
  | [] => ret tt
  end ;;;
  _ <- rec (CApply el element tok) ;;
  push_element el ;;;
  build_children ch ;;;
  pop_element el ;;;
  (* element.on_created(): no validation failure is modelled *)
  ret (PElement el).

(** [SceneBuilder._build_Scene] *)
Definition _build_Scene (ch : list node) (tok : option token) : M pyval :=
  st <- get_state ;;
  if negb (is_including st) then _build_Create "Scene" None ch tok
  else
    for_each (fun c =>
                match c with
                | NInclude _ _ | NTemplate _ _ _ _ =>
                    r <- build_ c ;;
                    match r with PNone => ret tt | _ => fail AssertionError end
                | _ => ret tt
                end) ch ;;;
    ret PNone.

(** [SceneBuilder._build_Template] *)
Definition _build_Template (name : string) (inherit : option string) (ch : list node)
    (tok : option token) : M pyval :=
  st <- get_state ;;
  match lookup_template name (templates st) with
  | Some _ => fail (create_error ("Redeclaration of " ++ repr name) "" tok)
  | None =>
      modify (upd_templates ((name, TTemplate (mkTemplate name inherit ch tok)) :: templates st)) ;;;
      ret PNone
  end.

(** [SceneBuilder._build_Define] *)
Definition _build_Define (name : string) (vnode : node) (tok : option token) : M pyval :=
  r <- build_ vnode ;;
  v <- expect_value r ;;
  el <- cur_element ;;
  st <- get_state ;;
  match define (heap_of st) el name v None false false None with
  | Ok h => modify (upd_heap h) ;;; ret PNone
  | Err (ElementPropertyDefinedError m) =>
      c <- class_of el ;; fail (create_error (m ++ " in " ++ cls_name c) "" tok)
  | Err e => fail e
  end.

(** The diagnostic elaboration of a circular reference. *)
Definition render_paths (paths : list (list prop_ref)) : string :=
  join_with nl (map (fun path => join_with " -> " (map ref_name path)) paths).

(** [SceneBuilder._build_Assign] *)
Definition _build_Assign (name : string) (vnode : node) (tok : option token) : M pyval :=
  el <- cur_element ;;
  c <- class_of el ;;
  st <- get_state ;;
  match get (heap_of st) el name with
  | Err (KeyError _) =>
      fail (create_error ("Assigning value to undefined property " ++ repr name ++ " in "
                          ++ cls_name c) "" tok)
  | Err e => fail e
  | Ok _ =>
      match lookup_prop (heap_of st) el name with
      | None => fail (KeyError name)
      | Some p =>
          match p_types p with
          | [] => fail IndexError
          | t :: _ =>
              push_type t ;;;
              r <- build_ vnode ;;
              pop_type t ;;;
              v <- expect_value r ;;
              el <- cur_element ;;
              c <- class_of el ;;
              st <- get_state ;;
              match set (heap_of st) el name v with
              | Ok h => modify (upd_heap h) ;;; ret PNone
              | Err (TypeError m) => fail (create_error (m ++ " in " ++ cls_name c) "" tok)
              | Err (ElementPropertyReadonlyError _) =>
                  fail (create_error ("Cannot assign to readonly property " ++ repr name
                                      ++ " in " ++ cls_name c) "" tok)
              | Err (ElementPropertyConstantError m) =>
                  fail (create_error (m ++ " in " ++ cls_name c) "" tok)
              | Err (CircularReferenceError m paths) =>
                  fail (create_error (m ++ " in " ++ cls_name c)
                                     ("Paths:" ++ nl ++ render_paths paths) tok)
              | Err e => fail e
              end
          end
      end
  end.

(** [SceneBuilder._build_MemberAccess]; [value.eval()] is the evaluator of
    the spec with an empty visitation stack. *)
Definition _build_MemberAccess (vnode : node) (member : string) (tok : option token)
    : M pyval :=
  r <- build_ vnode ;;
  v <- expect_value r ;;
  st <- get_state ;;
  w <- lift (eval (S (total_props (heap_of st))) (heap_of st) [] v) ;;
  match w with
  | VElement e => v' <- lift (_get_property (heap_of st) e member tok) ;; ret (PValue v')
  | _ => fail AssertionError
  end.

(** [SceneBuilder._build_Number] *)
Definition _build_Number (q : Q) (unit : option string) (tok : option token) : M pyval :=
  match unit with
  | None => ret (PValue (VNumber q))
  | Some u =>
      if String.eqb u "%" then ret (PValue (VPercentage q))
      else match find (fun a => String.eqb u (angle_unit_value a)) angle_units with
           | Some a => ret (PValue (VAngle q a))
           | None =>
               match find (fun t => String.eqb u (time_unit_value t)) time_units with
               | Some t => ret (PValue (VTime q t))
               | None => fail (create_error ("Unexpected unit " ++ repr u
                                             ++ ", expected any of " ++ units_repr) "" tok)
               end
           end
  end.

(** [SceneBuilder._build_Call] *)
Definition _build_Call (name : string) (args : list node) : M pyval :=
  vs <- (fix build_args (l : list node) : M (list value) :=
           match l with
           | [] => ret []
           | a :: l' => r <- build_ a ;; v <- expect_value r ;;
                        vs <- build_args l' ;; ret (v :: vs)
           end) args ;;
  if function_defined name then ret (PValue (VCall name vs)) else fail (KeyError name).

(** [SceneBuilder._build_Name]: an enum or flag member when the active
    type is an enum or flag type that has it, else a property lookup. *)
Definition _build_Name (name : string) (tok : option token) : M pyval :=
  st <- get_state ;;
  let member :=
    match types st with
    | TEnumType en :: _ =>
        option_map (fun m => VEnum en (snd m)) (find (fun m => String.eqb (fst m) name) (enum_members en))
    | TFlagType fl :: _ =>
        option_map (fun m => VFlag fl (snd m)) (find (fun m => String.eqb (fst m) name) (enum_members fl))
    | _ => None
    end in
  match member with
  | Some v => ret (PValue v)
  | None =>
      el <- cur_element ;;
      v <- lift (_get_property (heap_of st) el name tok) ;;
      ret (PValue v)
  end.

(** [SceneBuilder._build]: dispatch on the node's class.  The operands of
    [UnaryOp] and [BinOp] are expression nodes, whose builds give values. *)
Definition build_node (n : node) : M pyval :=
  match n with
  | NInclude path tok => _build_Include path tok
  | NTemplate name inherit ch tok => _build_Template name inherit ch tok
  | NScene ch tok => _build_Scene ch tok
  | NCreate element name ch tok => _build_Create element name ch tok
  | NDefine name v tok => _build_Define name v tok
  | NAssign name v tok => _build_Assign name v tok
  | NMemberAccess v member tok => _build_MemberAccess v member tok
  | NUnaryOp op a _ => r <- build_ a ;; x <- expect_value r ;; ret (PValue (VUnaryOp op x))
  | NBinOp op a b _ =>
      r1 <- build_ a ;; x <- expect_value r1 ;;
      r2 <- build_ b ;; y <- expect_value r2 ;;
      ret (PValue (VBinOp op x y))
  | NNumber q u tok => _build_Number q u tok
  | NStringLit s _ => ret (PValue (VString s))
  | NCall name args _ => _build_Call name args
  | NName name tok => _build_Name name tok
  end.

End Visitors.

(** The recursive builder: each request goes one level of Python recursion
    deeper. *)
Fixpoint run (fuel : nat) (c : call) {struct fuel} : M pyval :=
  match fuel with
  | 0 => fail RecursionError
  | S f =>
      match c with
      | CBuild n => build_node (run f) n
      | CApply el name tok => _apply_template (run f) el name tok
      | CInclude fn => _include (run f) fn
      end
  end.

(** [assert isinstance(string, Create)] and [assert string.element ==
    "Scene"]: a [Scene] node, or a [Create] node of element "Scene". *)
Definition build_root (root : node) : bool :=
  match root with
  | NScene _ _ => true
  | NCreate element _ _ _ => String.eqb element "Scene"
  | _ => false
  end.

(** [SceneBuilder.build] on a parsed tree: the root must pass the two
    assertions; the registry is seeded with the element types. *)
Definition build (fuel : nat) (root : node) : M pyval :=
  if build_root root then
    modify (fun st => upd_types [] (upd_elements []
               (upd_templates (map (fun c => (cls_name c, TType c)) element_types) st))) ;;;
    r <- run fuel (CBuild root) ;;
    match r with
    | PElement e =>
        c <- class_of e ;;
        match c with
        | Scene => modify (fun st => upd_types [] (upd_elements [] st)) ;;; ret r
        | _ => fail AssertionError
        end
    | _ => fail AssertionError
    end
  else fail AssertionError.

(** The ancestor chain of an element: the element itself, its parent, and
    so on up to the root, the element without a parent. *)
Inductive ancestor_chain (h : heap) : nat -> list nat -> Prop :=
| chain_root : forall e x,
    nth_error h e = Some x -> e_parent x = None -> ancestor_chain h e [e]
| chain_parent : forall e x p l,
    nth_error h e = Some x -> e_parent x = Some p -> ancestor_chain h p l ->
    ancestor_chain h e (e :: l).

(** The property [name] of the first element of [l] that has one. *)
Fixpoint first_prop (h : heap) (name : string) (l : list nat) : option value :=
  match l with
  | [] => None
  | a :: l' =>
      match lookup_prop h a name with
      | Some _ => Some (VProperty a name)
      | None => first_prop h name l'
      end
  end.

(** Expression nodes: the nodes whose build only computes a value. *)
Fixpoint is_expression (n : node) : bool :=
  match n with
  | NMemberAccess v _ _ => is_expression v
  | NUnaryOp _ a _ => is_expression a
  | NBinOp _ a b _ => is_expression a && is_expression b
  | NNumber _ _ _ | NStringLit _ _ | NName _ _ => true
  | NCall _ args _ => forallb is_expression args
  | _ => false
  end.

(** The top-level directives [_build_Scene] runs in an included file. *)
Definition includable (n : node) : bool :=
  match n with NInclude _ _ | NTemplate _ _ _ _ => true | _ => false end.

(** The log grows from [st] to [st'] by events of elements that did not
    exist in [st], or of element [t]; and the heap does not shrink. *)
Definition grows (t : option nat) (st st' : state) : Prop :=
  length (heap_of st) <= length (heap_of st') /\
  exists l, log st' = log st ++ l /\
    Forall (fun ev => length (heap_of st) <= ev_element ev \/ t = Some (ev_element ev)) l.

(** The element a builder request applies a template to, if any. *)
Definition target (c : call) : option nat :=
  match c with CApply el _ _ => Some el | _ => None end.

(** The events applying template [name] to element [el] produces, as
    [_apply_template] resolves it against the registry [reg]: those of the
    inherit target first, then one per directive of the template in its
    declared order; a concrete type gives its [on_ready] call. *)
Fixpoint template_events (fuel : nat) (reg : list (string * tentry)) (el : nat)
    (name : string) : list event :=
  match fuel with
  | 0 => []
  | S f =>
      match lookup_template name reg with
      | Some (TType _) => [EvReady el]
      | Some (TTemplate t) =>
          template_events f reg el (inherit_or_default t) ++
          map (EvDirective el (t_name t)) (t_children t)
      | None => []
      end
  end.

(** The events of element [el] in a log. *)
Definition events_of (el : nat) (l : list event) : list event :=
  filter (fun ev => Nat.eqb (ev_element ev) el) l.

(** The builder's stacks are as in [st]: the active elements, the active
    types, the search directories and the include stack. *)
Definition keeps_stacks (st st' : state) : Prop :=
  elements st' = elements st /\ types st' = types st /\
  search_paths st' = search_paths st /\ including st' = including st.

(** Names whose templates inherit, by the [inherit or "Drawable"] rule, only
    from names of the same list. *)
Definition inherit_closed (reg : list (string * tentry)) (names : list string) : Prop :=
  forall n, In n names -> exists t, lookup_template n reg = Some (TTemplate t) /\
                                    In (inherit_or_default t) names.

(** The scene tree [h'] extends [h]: every element of [h] is still there,
    of the same class and with the same parent, and its children list has
    only been appended to. *)
Definition extends_tree (h h' : heap) : Prop :=
  length h <= length h' /\
  forall e x, nth_error h e = Some x ->
    exists y l, nth_error h' e = Some y /\ e_cls y = e_cls x /\ e_parent y = e_parent x /\
                e_children y = e_children x ++ l.

(** The property table [Drawable.on_ready] declares on a drawable that is
    child number [i] of its parent. *)
Definition drawable_props (i : nat) : list prop :=
  [mkProp "index" (num (Z.of_nat i)) [TNumber] true true None;
   mkProp "x" (num 0) [TNumber] false false (Some "width"%string);
   mkProp "y" (num 0) [TNumber] false false (Some "height"%string);
   mkProp "width" (pct 100) [TPercentage] false false (Some "width"%string);
   mkProp "height" (pct 100) [TPercentage] false false (Some "height"%string)]%string.

(** The [color] and [fill] properties of a shape [e]: [fill] refers to
    [color]. *)
Definition color_fill_props (e : nat) : list prop :=
  [mkProp "color" (vec4 255 255 255 255) [TVec4] false false None;
   mkProp "fill" (VProperty e "color") [TExpression] false false None]%string.

(** The [outline] and [outline_width] properties of a shape. *)
Definition outline_props : list prop :=
  [mkProp "outline" (vec4 0 0 0 0) [TVec4] false false None;
   mkProp "outline_width" (num 1) [TNumber] false false None]%string.

(** * Properties *)

(** ** Named element creation *)

(** C9: building a [Create] node that carries a non-empty name raises
    [NotImplementedError] whatever the builder's state, before any element
    is constructed or attached. *)
Theorem create_named_not_implemented :
  forall fuel element s ch tok st, s <> ""%string ->
  run (S fuel) (CBuild (NCreate element (Some s) ch tok)) st = Err NotImplementedError.
Proof.
  intros fuel element s ch tok st Hs.
  cbn [run build_node]. unfold _build_Create, truthy.
  destruct (String.eqb s "") eqn:E.
  - apply String.eqb_eq in E. contradiction.
  - reflexivity.
Qed.

(** ** Include-once *)

(** C4: an include directive that resolves to a file whose absolute path is
    being included or has been included returns without error and leaves
    the whole builder state unchanged: no file is opened (the [opened] log
    is unchanged) and no template or element is registered. *)
Theorem include_seen_is_noop :
  forall fuel path tok filename st,
  _find_scene_file (search_paths st) path = Ok filename ->
  (mem_string (abspath filename) (including st) = true \/
   mem_string (abspath filename) (included st) = true) ->
  run (S (S fuel)) (CBuild (NInclude path tok)) st = Ok (PNone, st) /\
  run (S fuel) (CInclude filename) st = Ok (PNone, st).
Proof.
  intros fuel path tok filename st Hf Hseen.
  assert (Hinc : _include (run fuel) filename st = Ok (PNone, st)).
  { unfold _include, bind, get_state.
    destruct (mem_string (abspath filename) (including st)) eqn:E1; [reflexivity|].
    destruct Hseen as [H | H]; [congruence|]. rewrite H. reflexivity. }
  split; [|exact Hinc].
  cbn [run build_node]. unfold _build_Include, bind, get_state. rewrite Hf.
  rewrite Hinc. reflexivity.
Qed.

(** ** Include resolution *)

Lemma str_app_assoc : forall a b c : string, ((a ++ b) ++ c = a ++ b ++ c)%string.
Proof. induction a as [|x a IH]; intros; simpl; [reflexivity | now rewrite IH]. Qed.

Lemma has_newline_app : forall a b : string,
  has_newline (a ++ b) = has_newline a || has_newline b.
Proof.
  induction a as [|x a IH]; intros b; simpl; [reflexivity|].
  rewrite IH. apply orb_assoc.
Qed.

Lemma partition_nl_first : forall a b : string,
  has_newline a = false -> partition_nl (a ++ nl ++ b) = (a, b).
Proof.
  induction a as [|x a IH]; intros b H; simpl in *.
  - reflexivity.
  - apply orb_false_iff in H as [H1 H2]. rewrite H1, IH by exact H2. reflexivity.
Qed.

Lemma first_existing_found : forall p dirs f,
  first_existing p dirs = Some f ->
  exists pre d post, dirs = pre ++ d :: post /\
    Forall (fun d' => isfile (path_join d' p) = false) pre /\
    isfile (path_join d p) = true /\ f = path_join d p.
Proof.
  induction dirs as [|d dirs IH]; intros f H; simpl in H; [discriminate|].
  destruct (isfile (path_join d p)) eqn:E.
  - injection H as <-. exists [], d, dirs. auto.
  - destruct (IH f H) as (pre & d' & post & -> & Hpre & Hd & ->).
    exists (d :: pre), d', post. simpl. auto.
Qed.

Lemma first_existing_split : forall p pre d post,
  Forall (fun d' => isfile (path_join d' p) = false) pre ->
  isfile (path_join d p) = true ->
  first_existing p (pre ++ d :: post) = Some (path_join d p).
Proof.
  induction pre as [|x pre IH]; intros d post Hpre Hd; simpl.
  - now rewrite Hd.
  - inversion Hpre; subst. rewrite H1. now apply IH.
Qed.

Lemma first_existing_none : forall p dirs,
  Forall (fun d => isfile (path_join d p) = false) dirs -> first_existing p dirs = None.
Proof.
  induction dirs as [|d dirs IH]; intros H; simpl; [reflexivity|].
  inversion H; subst. rewrite H2. now apply IH.
Qed.

(** C6: an include's dotted path is searched for in the search directories
    from the last appended to the first, the first hit winning; a directory
    appended last therefore takes priority; when no directory has the file
    the build fails with the "Failed including" error whose elaboration
    lists every path tried, in search order; and the directives of an
    included file are built with that file's directory appended to the
    search directories (so searched first). *)
Theorem include_search_order :
  forall path p sp,
  module_file path = Ok p ->
  (forall f, _find_scene_file sp path = Ok f <->
     exists pre d post, rev sp = pre ++ d :: post /\
       Forall (fun d' => isfile (path_join d' p) = false) pre /\
       isfile (path_join d p) = true /\ f = path_join d p) /\
  (forall d, isfile (path_join d p) = true ->
     _find_scene_file (sp ++ [d]) path = Ok (path_join d p)) /\
  (forall fuel tok st,
     search_paths st = sp ->
     Forall (fun d => isfile (path_join d p) = false) sp ->
     has_newline (join_with "." path) = false ->
     run (S fuel) (CBuild (NInclude path tok)) st =
       Err (create_error ("Failed including " ++ join_with "." path)
                         ("Tried..." ++ nl ++ tried_paths p (rev sp)) tok)) /\
  (forall fuel filename ch st,
     search_paths st = sp ->
     mem_string (abspath filename) (including st) = false ->
     mem_string (abspath filename) (included st) = false ->
     read_scene (abspath filename) = Some ch ->
     exists st1 k,
       search_paths st1 = sp ++ [dirname (abspath filename)] /\
       including st1 = including st ++ [abspath filename] /\
       run (S fuel) (CInclude filename) st =
         bind (run fuel (CBuild (NScene ch None))) k st1).
Proof.
  intros path p sp Hp.
  split; [|split; [|split]].
  - intros f. unfold _find_scene_file. rewrite Hp. simpl. split.
    + destruct (first_existing p (rev sp)) eqn:E; [|discriminate].
      intros H. injection H as <-. now apply first_existing_found.
    + intros (pre & d & post & Hs & Hpre & Hd & ->).
      rewrite Hs, first_existing_split by assumption. reflexivity.
  - intros d Hd. unfold _find_scene_file. rewrite Hp. simpl.
    rewrite rev_app_distr. simpl. rewrite Hd. reflexivity.
  - intros fuel tok st Hsp Hnone Hnl.
    cbn [run build_node]. unfold _build_Include, bind, get_state.
    rewrite Hsp. unfold _find_scene_file. rewrite Hp. cbn [rbind].
    rewrite first_existing_none by (apply Forall_rev; exact Hnone).
    rewrite <- str_app_assoc, partition_nl_first.
    + reflexivity.
    + rewrite has_newline_app. exact Hnl.
  - intros fuel filename ch st Hsp Hi1 Hi2 Hread.
    eexists. eexists. split; [|split].
    3: { cbn [run]. unfold _include, bind at 1, get_state. rewrite Hi1, Hi2.
         unfold bind at 1, modify. unfold bind at 1, modify.
         rewrite Hread. unfold bind at 1, modify. unfold build_.
         reflexivity. }
    + simpl. now rewrite Hsp.
    + reflexivity.
Qed.

(** ** Ancestor property lookup *)

Lemma chain_deterministic : forall h e l1, ancestor_chain h e l1 ->
  forall l2, ancestor_chain h e l2 -> l1 = l2.
Proof.
  intros h e l1 H1. induction H1; intros l2 H2; inversion H2; subst;
    repeat match goal with
    | Ha : nth_error h ?e = Some _, Hb : nth_error h ?e = Some _ |- _ =>
        rewrite Ha in Hb; injection Hb as <-
    end; try congruence.
  match goal with
  | Hp : e_parent ?x = Some ?p, Hq : e_parent ?x = Some ?q |- _ =>
      rewrite Hp in Hq; injection Hq as <-
  end.
  f_equal. auto.
Qed.

Lemma chain_suffix : forall h e l, ancestor_chain h e l ->
  forall a, In a l -> exists l', ancestor_chain h a l' /\ length l' <= length l.
Proof.
  intros h e l H. induction H; intros a Ha.
  - destruct Ha as [<- | []]. exists [e]. split; [econstructor; eauto | auto].
  - destruct Ha as [<- | Ha].
    + exists (e :: l). split; [econstructor; eauto | auto].
    + destruct (IHancestor_chain a Ha) as (l' & Hl' & Hlen).
      exists l'. simpl. split; [exact Hl' | lia].
Qed.

Lemma chain_nodup : forall h e l, ancestor_chain h e l -> NoDup l.
Proof.
  intros h e l H. induction H.
  - constructor; [intros []|constructor].
  - constructor; [|exact IHancestor_chain].
    intros Hin. destruct (chain_suffix h p l H1 e Hin) as (l' & Hl' & Hlen).
    assert (e :: l = l') by (eapply chain_deterministic; [econstructor; eauto | exact Hl']).
    subst l'. simpl in Hlen. lia.
Qed.

Lemma chain_in_heap : forall h e l, ancestor_chain h e l ->
  forall a, In a l -> a < length h.
Proof.
  intros h e l H. induction H; intros a Ha; destruct Ha as [<- | Ha];
    try (apply nth_error_Some; congruence); try contradiction; auto.
Qed.

Lemma chain_length : forall h e l, ancestor_chain h e l -> length l <= length h.
Proof.
  intros h e l H. rewrite <- (length_seq (length h) 0).
  apply NoDup_incl_length; [eapply chain_nodup; eauto|].
  intros a Ha. apply in_seq. pose proof (chain_in_heap h e l H a Ha). lia.
Qed.

Lemma walk_chain : forall h name e l, ancestor_chain h e l ->
  forall fuel, length l <= fuel ->
  get_property_walk fuel h (Some e) name = Ok (first_prop h name l).
Proof.
  intros h name e l H. induction H; intros fuel Hlen;
    (destruct fuel as [|f]; [simpl in Hlen; lia|]); cbn [get_property_walk first_prop];
    unfold get; (destruct (lookup_prop h e name) eqn:E; [reflexivity|]);
    unfold elem_of; rewrite H; cbn [rbind]; rewrite H0.
  - destruct f; reflexivity.
  - apply IHancestor_chain. simpl in Hlen. lia.
Qed.

Lemma first_prop_some : forall h name l v,
  first_prop h name l = Some v <->
  exists pre a post, l = pre ++ a :: post /\
    Forall (fun b => lookup_prop h b name = None) pre /\
    lookup_prop h a name <> None /\ v = VProperty a name.
Proof.
  intros h name l v. induction l as [|b l IH]; simpl.
  - split; [discriminate|]. intros (pre & a & post & Hl & _). destruct pre; discriminate.
  - destruct (lookup_prop h b name) eqn:E; split.
    + intros Hv. injection Hv as <-. exists [], b, l. rewrite E. repeat split; auto; discriminate.
    + intros (pre & a & post & Hl & Hpre & Ha & ->). destruct pre as [|c pre].
      * injection Hl as <- _. reflexivity.
      * injection Hl as <- _. inversion Hpre; congruence.
    + intros Hv. apply IH in Hv as (pre & a & post & -> & Hpre & Ha & ->).
      exists (b :: pre), a, post. repeat split; auto.
    + intros (pre & a & post & Hl & Hpre & Ha & ->). destruct pre as [|c pre].
      * injection Hl as <- _. congruence.
      * injection Hl as <- ->. apply IH. exists pre, a, post. inversion Hpre; auto.
Qed.

Lemma first_prop_none : forall h name l,
  first_prop h name l = None <-> Forall (fun b => lookup_prop h b name = None) l.
Proof.
  intros h name l. induction l as [|b l IH]; simpl; [split; auto|].
  destruct (lookup_prop h b name) eqn:E; split; intros H.
  - discriminate.
  - inversion H; congruence.
  - constructor; [exact E | now apply IH].
  - inversion H; now apply IH.
Qed.

(** C3: resolving a property reference walks the ancestor chain from the
    element: the result is the property of the nearest element of the chain
    (the element itself first) that has one, and the lookup fails with the
    "Undefined property" error exactly when no element of the chain, up to
    the root, has the property; there is no other outcome. *)
Theorem get_property_nearest_ancestor : forall h e l name tok,
  ancestor_chain h e l ->
  (forall v, _get_property h e name tok = Ok v <->
     exists pre a post, l = pre ++ a :: post /\
       Forall (fun b => lookup_prop h b name = None) pre /\
       lookup_prop h a name <> None /\ v = VProperty a name) /\
  (_get_property h e name tok = Err (create_error ("Undefined property " ++ repr name) "" tok)
     <-> Forall (fun b => lookup_prop h b name = None) l) /\
  ((exists v, _get_property h e name tok = Ok v) \/
   _get_property h e name tok = Err (create_error ("Undefined property " ++ repr name) "" tok)).
Proof.
  intros h e l name tok Hc.
  assert (Hget : _get_property h e name tok =
                 match first_prop h name l with
                 | Some v => Ok v
                 | None => Err (create_error ("Undefined property " ++ repr name) "" tok)
                 end).
  { unfold _get_property.
    assert (He : e < length h) by (eapply chain_in_heap; eauto; inversion Hc; left; reflexivity).
    destruct (nth_error h e) eqn:E; [|apply nth_error_None in E; lia].
    rewrite walk_chain with (l := l) by (auto; pose proof (chain_length h e l Hc); lia).
    reflexivity. }
  rewrite Hget. split; [|split].
  - intros v. rewrite <- first_prop_some.
    destruct (first_prop h name l); split; congruence.
  - rewrite <- first_prop_none. destruct (first_prop h name l); split; congruence.
  - destruct (first_prop h name l); [left; eauto | right; reflexivity].
Qed.

(** ** Containment *)

Lemma nth_error_app_old : forall {A} (l : list A) x i y,
  nth_error l i = Some y -> nth_error (l ++ [x]) i = Some y.
Proof.
  intros A l x i y H. rewrite nth_error_app1; [exact H|].
  apply nth_error_Some. congruence.
Qed.

Lemma nth_error_app_new : forall {A} (l : list A) x,
  nth_error (l ++ [x]) (length l) = Some x.
Proof. intros. rewrite nth_error_app2, Nat.sub_diag by lia. reflexivity. Qed.

(** C7: creating an element under an active parent that is a
    [BaseDrawable], when the new element is neither a [Drawable] nor an
    [Animation], fails with the error "Cannot add <child type> to <parent
    type>". *)
Theorem create_rejected_by_container :
  forall fuel element ch tok st parent rest px c,
  elements st = parent :: rest ->
  nth_error (heap_of st) parent = Some px ->
  get_element_type (templates st) element tok = Ok c ->
  is_base_drawable (e_cls px) = true ->
  is_drawable c = false -> is_animation c = false ->
  run (S fuel) (CBuild (NCreate element None ch tok)) st =
    Err (create_error ("Cannot add " ++ cls_name c ++ " to " ++ cls_name (e_cls px)) "" tok).
Proof.
  intros fuel element ch tok st parent rest px c Hel Hpx Hty Hbase Hdraw Hanim.
  cbn [run build_node]. unfold _build_Create. cbn [truthy].
  unfold bind at 1, get_state. unfold bind at 1, lift. rewrite Hty.
  unfold bind at 1, get_state. unfold bind at 1, modify.
  unfold bind at 1, get_state. unfold bind at 1. cbn [elements upd_heap heap_of].
  rewrite Hel. unfold bind at 1, class_of. cbn [heap_of upd_heap].
  unfold elem_of at 1. rewrite (nth_error_app_old _ _ _ _ Hpx).
  unfold add, element_add, elem_of. rewrite (nth_error_app_old _ _ _ _ Hpx).
  rewrite nth_error_app_new. cbn [rbind e_cls]. rewrite Hbase, Hdraw, Hanim.
  reflexivity.
Qed.

(** ** The builder monad, step by step *)

Lemma bind_ok : forall A B (m : M A) (k : A -> M B) st r st',
  bind m k st = Ok (r, st') -> exists a st1, m st = Ok (a, st1) /\ k a st1 = Ok (r, st').
Proof.
  unfold bind. intros A B m k st r st' H.
  destruct (m st) as [[a st1]|e]; [eauto | discriminate].
Qed.

Lemma get_state_ok : forall st a st', get_state st = Ok (a, st') -> a = st /\ st' = st.
Proof. unfold get_state. intros st a st' H. injection H as <- <-. auto. Qed.

Lemma ret_ok : forall A (x : A) st a st', ret x st = Ok (a, st') -> a = x /\ st' = st.
Proof. unfold ret. intros A x st a st' H. injection H as <- <-. auto. Qed.

Lemma lift_ok : forall A (r : result A) st a st', lift r st = Ok (a, st') -> r = Ok a /\ st' = st.
Proof. unfold lift. intros A r st a st' H. destruct r; [injection H as <- <-; auto | discriminate]. Qed.

Lemma expect_value_ok : forall r st v st',
  expect_value r st = Ok (v, st') -> r = PValue v /\ st' = st.
Proof.
  unfold expect_value. intros r st v st' H.
  destruct r; try discriminate. apply ret_ok in H as [-> ->]. auto.
Qed.

Lemma cur_element_ok : forall st e st', cur_element st = Ok (e, st') -> st' = st.
Proof.
  unfold cur_element. intros st e st' H.
  destruct (elements st); [discriminate | injection H as _ <-; reflexivity].
Qed.

Lemma fail_ok : forall A e st (a : A) st', fail e st = Ok (a, st') -> False.
Proof. discriminate. Qed.

Ltac bind_inv :=
  repeat match goal with
  | H : bind _ _ _ = Ok _ |- _ =>
      let a := fresh "a" in let st := fresh "st" in let H1 := fresh "H" in
      apply bind_ok in H; destruct H as (a & st & H1 & H)
  | H : get_state _ = Ok _ |- _ => apply get_state_ok in H; destruct H as [? ?]; subst
  | H : ret _ _ = Ok _ |- _ => apply ret_ok in H; destruct H as [? ?]; subst
  | H : lift _ _ = Ok _ |- _ => apply lift_ok in H; destruct H as [? ?]; subst
  | H : expect_value _ _ = Ok _ |- _ => apply expect_value_ok in H; destruct H as [? ?]; subst
  | H : cur_element _ = Ok _ |- _ => apply cur_element_ok in H; subst
  | H : fail _ _ = Ok _ |- _ => destruct (fail_ok _ _ _ _ _ H)
  end.

(** Building an expression node leaves the builder state as it is. *)
Lemma expression_pure : forall fuel n st r st',
  is_expression n = true -> run fuel (CBuild n) st = Ok (r, st') -> st' = st.
Proof.
  induction fuel as [|f IH]; intros n st r st' Hn H; [discriminate|].
  destruct n; cbn [is_expression] in Hn; try discriminate;
    cbn [run build_node] in H.
  - (* MemberAccess *)
    unfold _build_MemberAccess, build_ in H. bind_inv.
    match goal with H1 : run f (CBuild n) _ = Ok _ |- _ => apply IH in H1; [subst|assumption] end.
    match type of H with (match ?w with _ => _ end) _ = Ok _ => destruct w end;
      bind_inv; reflexivity.
  - (* UnaryOp *)
    unfold build_ in H. bind_inv.
    match goal with H1 : run f (CBuild n) _ = Ok _ |- _ => apply IH in H1; [subst|assumption] end.
    reflexivity.
  - (* BinOp *)
    apply andb_true_iff in Hn as [Hn1 Hn2].
    unfold build_ in H. bind_inv.
    repeat match goal with H1 : run f (CBuild _) _ = Ok _ |- _ => apply IH in H1; [subst|assumption] end.
    reflexivity.
  - (* Number *)
    unfold _build_Number in H.
    destruct unit as [u|]; [|bind_inv; reflexivity].
    destruct (String.eqb u "%"); [bind_inv; reflexivity|].
    destruct (find _ angle_units); [bind_inv; reflexivity|].
    destruct (find _ time_units); bind_inv; reflexivity.
  - (* String *)
    bind_inv. reflexivity.
  - (* Call *)
    unfold _build_Call in H. bind_inv.
    assert (Hargs : forall l s0 vs s1, forallb is_expression l = true ->
              (fix build_args (l : list node) : M (list value) :=
                 match l with
                 | [] => ret []
                 | a :: l' => r <- build_ (run f) a ;; v <- expect_value r ;;
                              vs <- build_args l' ;; ret (v :: vs)
                 end) l s0 = Ok (vs, s1) -> s1 = s0).
    { induction l as [|x l IHl]; intros s0 vs s1 Hl Hb; [bind_inv; reflexivity|].
      apply andb_true_iff in Hl as [Hx Hl]. unfold build_ in Hb. bind_inv.
      repeat match goal with
             | H1 : _ = Ok _ |- _ => first [apply IH in H1 | apply IHl in H1]; [|assumption]
             end; congruence. }
    match goal with H1 : _ st = Ok (_, ?s) |- _ => apply Hargs in H1; [subst|assumption] end.
    destruct (function_defined name); bind_inv; reflexivity.
  - (* Name *)
    unfold _build_Name in H. bind_inv.
    destruct (match types st with
              | TEnumType en :: _ => _ | TFlagType fl :: _ => _ | _ => None end);
      bind_inv; reflexivity.
Qed.

Lemma upd_types_id : forall l st, upd_types (types st) (upd_types l st) = st.
Proof. intros l []. reflexivity. Qed.

(** The outcome of an [Assign] node whose value is an expression that builds
    to [v]: the outcome of [Element.set], translated to a diagnostic. *)
Lemma assign_outcome : forall fuel name vnode tok st el rest x p t ts v st1,
  elements st = el :: rest ->
  nth_error (heap_of st) el = Some x ->
  lookup_prop (heap_of st) el name = Some p ->
  p_types p = t :: ts ->
  is_expression vnode = true ->
  run fuel (CBuild vnode) (upd_types (t :: types st) st) = Ok (PValue v, st1) ->
  run (S fuel) (CBuild (NAssign name vnode tok)) st =
  match set (heap_of st) el name v with
  | Ok h => Ok (PNone, upd_heap h st)
  | Err (TypeError m) => Err (create_error (m ++ " in " ++ cls_name (e_cls x)) "" tok)
  | Err (ElementPropertyReadonlyError _) =>
      Err (create_error ("Cannot assign to readonly property " ++ repr name
                         ++ " in " ++ cls_name (e_cls x)) "" tok)
  | Err (ElementPropertyConstantError m) =>
      Err (create_error (m ++ " in " ++ cls_name (e_cls x)) "" tok)
  | Err (CircularReferenceError m paths) =>
      Err (create_error (m ++ " in " ++ cls_name (e_cls x))
                        ("Paths:" ++ nl ++ render_paths paths) tok)
  | Err e => Err e
  end.
Proof.
  intros fuel name vnode tok st el rest x p t ts v st1 Hel Hx Hp Ht Hexpr Hv.
  pose proof (expression_pure _ _ _ _ _ Hexpr Hv) as ->.
  cbn [run build_node]. unfold _build_Assign, bind, cur_element, class_of, get_state, elem_of, get.
  rewrite Hel, Hx, Hp, Ht. unfold push_type, modify, build_.
  rewrite Hv. unfold pop_type. cbn [types upd_types].
  destruct (ty_eq_dec t t) as [_|n]; [|congruence].
  rewrite upd_types_id. cbn [expect_value ret]. rewrite Hel, Hx.
  destruct (set (heap_of st) el name v) as [h|[]]; reflexivity.
Qed.

Lemma nth_error_replace_nth_same : forall {A} (l : list A) n x y,
  nth_error l n = Some y -> nth_error (replace_nth l n x) n = Some x.
Proof.
  induction l as [|a l IH]; intros [|n] x y H; cbn in *; try discriminate; eauto.
Qed.

Lemma nth_error_replace_nth_other : forall {A} (l : list A) n m x,
  n <> m -> nth_error (replace_nth l n x) m = nth_error l m.
Proof.
  induction l as [|a l IH]; intros [|n] [|m] x H; cbn; auto; congruence.
Qed.


Lemma lookup_find_prop : forall h e x name,
  nth_error h e = Some x -> lookup_prop h e name = find_prop name (e_props x).
Proof. intros h e x name H. unfold lookup_prop. rewrite H. reflexivity. Qed.

(** [Element.set] on a property, by its flags. *)
Lemma set_by_flags : forall h e x name p v,
  nth_error h e = Some x -> find_prop name (e_props x) = Some p ->
  set h e name v =
  if p_readonly p then Err (ElementPropertyReadonlyError (repr name))
  else if p_constant p then
    Err (ElementPropertyConstantError ("Cannot assign to constant property " ++ repr name))
  else if negb (type_ok (p_types p) v) then
    Err (TypeError ("Incompatible value for property " ++ repr name))
  else match cycle_from (store h e x name v) e name v with
       | Some path => Err (CircularReferenceError circular_message [path])
       | None => Ok (store h e x name v)
       end.
Proof. intros h e x name p v Hx Hp. unfold set, elem_of. rewrite Hx. cbn. rewrite Hp. reflexivity. Qed.


(** C1 (amended): when an assignment's new value [v] closes a cycle of
    property references (the property being neither [ReadOnly] nor
    [Constant] and [v] type-compatible), the build fails with the
    circular-reference error, and its elaboration is "Paths:" followed by
    the names of the properties of the cycle, in order, joined by " -> ":
    the elements of the (element, property) pairs are not part of it. *)
Theorem assign_cycle_diagnostic : forall fuel name vnode tok st el rest x p t ts v st1 path,
  elements st = el :: rest ->
  nth_error (heap_of st) el = Some x ->
  find_prop name (e_props x) = Some p ->
  p_types p = t :: ts ->
  is_expression vnode = true ->
  run fuel (CBuild vnode) (upd_types (t :: types st) st) = Ok (PValue v, st1) ->
  p_readonly p = false -> p_constant p = false -> type_ok (p_types p) v = true ->
  cycle_from (store (heap_of st) el x name v) el name v = Some path ->
  run (S fuel) (CBuild (NAssign name vnode tok)) st =
  Err (create_error (circular_message ++ " in " ++ cls_name (e_cls x))
                    ("Paths:" ++ nl ++ join_with " -> " (map ref_name path)) tok).
Proof.
  intros fuel name vnode tok st el rest x p t ts v st1 path Hel Hx Hp Ht Hexpr Hv Hr Hc Hty Hcyc.
  assert (Hl : lookup_prop (heap_of st) el name = Some p)
    by (rewrite (lookup_find_prop _ _ _ _ Hx); exact Hp).
  rewrite (assign_outcome fuel name vnode tok st el rest x p t ts v st1 Hel Hx Hl Ht Hexpr Hv).
  rewrite (set_by_flags _ _ _ _ _ v Hx Hp), Hr, Hc, Hty, Hcyc. reflexivity.
Qed.

Lemma replace_nth_twice : forall {A} (l : list A) n x y,
  replace_nth (replace_nth l n x) n y = replace_nth l n y.
Proof. induction l as [|a l IH]; intros [|n] x y; cbn; f_equal; auto. Qed.

Lemma total_props_at : forall h c x0,
  nth_error h c = Some x0 -> length (e_props x0) <= total_props h.
Proof.
  unfold total_props.
  induction h as [|a h IH]; intros [|c] x0 H; cbn [nth_error fold_right] in *; try discriminate.
  - injection H as ->. lia.
  - specialize (IH _ _ H). lia.
Qed.

Lemma total_props_replace : forall h c x0 y,
  nth_error h c = Some x0 ->
  total_props (replace_nth h c y) = length (e_props y) + (total_props h - length (e_props x0)).
Proof.
  induction h as [|a h IH]; intros [|c] x0 y H; cbn [nth_error replace_nth] in *; try discriminate.
  - injection H as ->. unfold total_props; cbn [fold_right]. lia.
  - pose proof (total_props_at _ _ _ H). unfold total_props in *; cbn [fold_right].
    rewrite (IH _ _ y H). lia.
Qed.

Ltac heap_steps H :=
  repeat progress (
    unfold prop_ref_eqb, lookup_prop, elem_of in H; cbn in H;
    repeat match type of H with
    | context [nth_error (replace_nth ?h ?c ?y) ?c] =>
        erewrite (nth_error_replace_nth_same h c y) in H by eassumption
    | context [nth_error (replace_nth ?h ?c ?y) ?d] =>
        rewrite (nth_error_replace_nth_other h c d y) in H by congruence
    | context [replace_nth (replace_nth ?h ?c ?x) ?c ?y] =>
        rewrite (replace_nth_twice h c x y) in H
    | context [total_props (replace_nth ?h ?c ?y)] =>
        erewrite (total_props_replace h c _ y) in H by eassumption
    | context [Nat.eqb ?c ?c] => rewrite Nat.eqb_refl in H
    | context [Nat.eqb ?a ?b] =>
        let E := fresh "E" in
        assert (E : Nat.eqb a b = false) by (apply Nat.eqb_neq; congruence);
        rewrite E in H; clear E
    | context [type_ok ?a ?b] =>
        let E := fresh "E" in destruct (type_ok a b) eqn:E; [|discriminate H]
    end).


(** C8: a fresh [Circle] [c] (no properties yet) whose parent [par] lists
    it among its children gets from [Circle.on_ready] the defaults
    [diameter = 100%] relative to [width], [radius = diameter / 2], and
    [width] and [height] set to [radius * 2]; if [diameter] is then assigned
    [50%] and the parent's [width] is the number [300], evaluating [radius]
    (with enough recursion depth) yields [75]. *)
Theorem circle_defaults_radius : forall h c par px ch h1,
  nth_error h c = Some (mkElem Circle (Some par) ch []) ->
  par <> c ->
  nth_error h par = Some px ->
  on_ready h c = Ok h1 ->
  lookup_prop h1 c "diameter" =
    Some (mkProp "diameter" (pct 100) [TPercentage] false false (Some "width"%string)) /\
  lookup_prop h1 c "radius" =
    Some (mkProp "radius" (VBinOp "/" (VProperty c "diameter") (num 2)) [TExpression]
            false false (Some "width"%string)) /\
  lookup_prop h1 c "width" =
    Some (mkProp "width" (VBinOp "*" (VProperty c "radius") (num 2)) [TPercentage]
            false false (Some "width"%string)) /\
  lookup_prop h1 c "height" =
    Some (mkProp "height" (VBinOp "*" (VProperty c "radius") (num 2)) [TPercentage]
            false false (Some "height"%string)) /\
  (forall pw h2 n,
     find_prop "width" (e_props px) = Some pw -> p_value pw = num 300 ->
     set h1 c "diameter" (pct 50) = Ok h2 -> 4 <= n ->
     exists q, eval n h2 [] (VProperty c "radius") = Ok (VNumber q) /\ (q == 75)%Q).
Proof.
  intros h c par px ch h1 Hc Hne Hpar H.
  unfold on_ready, elem_of in H. rewrite Hc in H. cbn [rbind e_cls] in H.
  unfold on_ready_Circle, on_ready_Drawable, define_color_fill, define_outline,
    define, set, get, elem_of, lookup_prop, store, cycle_from, with_props in H.
  rewrite Hc in H. cbn [rbind e_parent] in H. rewrite Hpar in H. cbn [rbind] in H.
  destruct (list_index c (e_children px)) as [i|] eqn:Hi; [|discriminate H].
  cbn [rbind] in H.
  heap_steps H.
  injection H as <-.
  unfold lookup_prop. erewrite nth_error_replace_nth_same by eassumption.
  repeat split; try reflexivity.
  intros pw h2 n Hw Hv Hs Hn.
  unfold set, elem_of, store, cycle_from, with_props in Hs.
  heap_steps Hs. injection Hs as <-.
  destruct n as [|[|[|[|f]]]]; try lia.
  remember (eval (S (S (S (S f)))) _ [] (VProperty c "radius")) as r eqn:Ev.
  symmetry in Ev. unfold elem_of in Ev.
  heap_steps Ev. rewrite Hpar in Ev. heap_steps Ev. rewrite Hw in Ev. heap_steps Ev.
  rewrite Hv in Ev. heap_steps Ev.
  subst r. eexists. split; [reflexivity|]. vm_compute. reflexivity.
Qed.

Lemma modify_ok : forall f st a st', modify f st = Ok (a, st') -> st' = f st.
Proof. unfold modify. intros f st a st' H. injection H as _ <-. reflexivity. Qed.

Ltac bind_inv_st :=
  repeat match goal with
  | H : modify _ _ = Ok _ |- _ => apply modify_ok in H; subst
  | _ => progress bind_inv
  end.

Lemma is_including_push : forall l x st,
  is_including (upd_including (l ++ [x]) st) = true.
Proof.
  intros l x st. unfold is_including. cbn [including upd_including].
  rewrite length_app. cbn. rewrite Nat.add_comm. reflexivity.
Qed.

(** Include and Template directives, and the [Scene] of a file built while
    another is being included, leave the element tree, the stack of active
    elements and the include stack as they are. *)
Lemma directives_preserve_tree : forall fuel c st r st',
  run fuel c st = Ok (r, st') ->
  match c with
  | CBuild (NScene _ _) => is_including st = true
  | CBuild (NInclude _ _) | CBuild (NTemplate _ _ _ _) | CInclude _ => True
  | _ => False
  end ->
  heap_of st' = heap_of st /\ elements st' = elements st /\ including st' = including st.
Proof.
  induction fuel as [|f IH]; intros c st r st' H Hc; [discriminate|].
  destruct c as [n| |fn]; [destruct n| |]; try contradiction;
    cbn [run build_node] in H.
  - (* Include *)
    unfold _build_Include in H. bind_inv_st.
    destruct (_find_scene_file (search_paths st) path) as [fn|[]];
      try (destruct (partition_nl _)); bind_inv_st.
    match goal with H1 : run f (CInclude fn) _ = Ok _ |- _ => apply IH in H1; [|exact I] end.
    assumption.
  - (* Template *)
    unfold _build_Template in H. bind_inv_st.
    destruct (lookup_template name (templates st)); bind_inv_st. auto.
  - (* Scene while including *)
    unfold _build_Scene in H. bind_inv_st. rewrite Hc in H. cbn [negb] in H.
    bind_inv_st.
    match goal with H1 : for_each _ children _ = Ok _ |- _ => revert H1 end.
    revert st Hc.
    induction children as [|n ch IHch]; intros st Hc H1; cbn [for_each] in H1;
      bind_inv_st; [auto|].
    match goal with
    | H4 : for_each _ ch ?s1 = Ok _, Hk : _ st = Ok (_, ?s1) |- _ =>
        assert (Hn : heap_of s1 = heap_of st /\ elements s1 = elements st /\
                     including s1 = including st);
        [ revert Hk; destruct n; cbv iota; intro Hk; unfold build_ in Hk; bind_inv_st; auto;
          match goal with H2 : run f (CBuild _) _ = Ok _ |- _ =>
            destruct (IH _ _ _ _ H2 I) as (? & ? & ?) end;
          match goal with H3 : (match ?w with _ => _ end) _ = Ok _ |- _ => destruct w end;
          bind_inv_st; auto
        | destruct Hn as (E1 & E2 & E3);
          assert (Hc0 : is_including s1 = true) by (unfold is_including in *; rewrite E3; exact Hc);
          destruct (IHch s1 Hc0 H4) as (F1 & F2 & F3) ]
    end.
    repeat split; congruence.
  - (* CInclude *)
    unfold _include, build_ in H. bind_inv_st.
    destruct (mem_string _ (including st)); [bind_inv_st; auto|].
    destruct (mem_string _ (included st)); [bind_inv_st; auto|].
    bind_inv_st. destruct (read_scene _) as [ch|]; bind_inv_st.
    match goal with H1 : run f (CBuild (NScene ch None)) _ = Ok _ |- _ =>
      apply IH in H1; [|apply is_including_push] end.
    destruct H1 as (F1 & F2 & F3). cbn in F1, F2, F3 |- *.
    rewrite F1, F2, F3, removelast_last. auto.
Qed.

Lemma for_each_skip : forall (k body : node -> M unit) ch st,
  (forall c st, k c st = if includable c then body c st else ret tt st) ->
  for_each k ch st = for_each body (filter includable ch) st.
Proof.
  intros k body ch. induction ch as [|c ch IH]; intros st Hk; [reflexivity|].
  cbn [for_each filter]. unfold bind at 1. rewrite Hk.
  destruct (includable c).
  - cbn [for_each]. unfold bind at 1.
    destruct (body c st) as [[a st1]|e]; [apply IH, Hk | reflexivity].
  - apply IH, Hk.
Qed.

(** C10: while the include stack is non-empty, building a file's [Scene]
    runs its top-level [Include] and [Template] directives, in order, and
    skips every other directive; when it succeeds, the element tree and the
    stack of active elements are as before: no element is created or
    attached. *)
Theorem included_scene_directives : forall fuel ch tok st,
  is_including st = true ->
  run (S fuel) (CBuild (NScene ch tok)) st =
    (for_each (fun c => r <- run fuel (CBuild c) ;;
                        match r with PNone => ret tt | _ => fail AssertionError end)
              (filter includable ch) ;;; ret PNone) st /\
  (forall r st', run (S fuel) (CBuild (NScene ch tok)) st = Ok (r, st') ->
     heap_of st' = heap_of st /\ elements st' = elements st).
Proof.
  intros fuel ch tok st Hc. split.
  - cbn [run build_node]. unfold _build_Scene, get_state. unfold bind at 1.
    rewrite Hc. cbn [negb]. unfold bind at 1 3.
    rewrite (for_each_skip _ (fun c => r <- run fuel (CBuild c) ;;
                        match r with PNone => ret tt | _ => fail AssertionError end)).
    + reflexivity.
    + intros [] st1; reflexivity.
  - intros r st' H. destruct (directives_preserve_tree _ _ _ _ _ H Hc) as (? & ? & _). auto.
Qed.

(** ** Heap sizes: only element creation extends the heap *)

Lemma rbind_ok : forall A B (r : result A) (k : A -> result B) b,
  rbind r k = Ok b -> exists a, r = Ok a /\ k a = Ok b.
Proof. intros A B [a|e] k b H; cbn in H; [eauto | discriminate]. Qed.

Lemma replace_nth_length : forall {A} (l : list A) n x, length (replace_nth l n x) = length l.
Proof. induction l as [|a l IH]; intros [|n] x; cbn; auto. Qed.

Lemma define_length : forall h e name v tys r c rel h',
  define h e name v tys r c rel = Ok h' -> length h' = length h.
Proof.
  unfold define. intros h e name v tys r c rel h' H.
  apply rbind_ok in H as (x & _ & H).
  destruct (find_prop name (e_props x)); [discriminate|].
  injection H as <-. apply replace_nth_length.
Qed.

Lemma set_length : forall h e name v h', set h e name v = Ok h' -> length h' = length h.
Proof.
  unfold set. intros h e name v h' H.
  apply rbind_ok in H as (x & _ & H).
  destruct (find_prop name (e_props x)) as [p|]; [|discriminate].
  destruct (p_readonly p); [discriminate|]. destruct (p_constant p); [discriminate|].
  destruct (negb (type_ok (p_types p) v)); [discriminate|].
  destruct (cycle_from _ _ _ _); [discriminate|].
  injection H as <-. apply replace_nth_length.
Qed.

Ltac len_inv :=
  repeat match goal with
  | H : rbind _ _ = Ok _ |- _ =>
      let a := fresh "a" in let Ha := fresh "Ha" in
      apply rbind_ok in H; destruct H as (a & Ha & H)
  | H : define _ _ _ _ _ _ _ _ = Ok _ |- _ => apply define_length in H
  | H : set _ _ _ _ = Ok _ |- _ => apply set_length in H
  end.

Lemma on_ready_Drawable_length : forall h e h', on_ready_Drawable h e = Ok h' -> length h' = length h.
Proof. unfold on_ready_Drawable. intros h e h' H. len_inv. lia. Qed.

Lemma define_color_fill_length : forall h e h', define_color_fill h e = Ok h' -> length h' = length h.
Proof. unfold define_color_fill. intros h e h' H. len_inv. lia. Qed.

Lemma define_outline_length : forall h e h', define_outline h e = Ok h' -> length h' = length h.
Proof. unfold define_outline. intros h e h' H. len_inv. lia. Qed.

Ltac len_inv_hooks :=
  len_inv;
  repeat (match goal with
          | H : on_ready_Drawable _ _ = Ok _ |- _ => apply on_ready_Drawable_length in H
          | H : define_color_fill _ _ = Ok _ |- _ => apply define_color_fill_length in H
          | H : define_outline _ _ = Ok _ |- _ => apply define_outline_length in H
          end; len_inv).

Lemma on_ready_Ellipse_length : forall h e h', on_ready_Ellipse h e = Ok h' -> length h' = length h.
Proof. unfold on_ready_Ellipse. intros h e h' H. len_inv_hooks. lia. Qed.

Lemma on_ready_length : forall h e h', on_ready h e = Ok h' -> length h' = length h.
Proof.
  unfold on_ready. intros h e h' H. apply rbind_ok in H as (x & _ & H).
  destruct (e_cls x);
    unfold on_ready_Scene, on_ready_Rectangle, on_ready_Circle, on_ready_Arc,
      on_ready_Line, on_ready_Image, on_ready_Text in H;
    len_inv_hooks;
    repeat match goal with
           | H : on_ready_Ellipse _ _ = Ok _ |- _ => apply on_ready_Ellipse_length in H
           | H : Ok _ = Ok _ |- _ => injection H as <-
           end;
    lia.
Qed.

Lemma element_add_length : forall h parent child h',
  element_add h parent child = Ok h' -> length h' = length h.
Proof.
  unfold element_add. intros h parent child h' H. len_inv.
  injection H as <-. rewrite !replace_nth_length. reflexivity.
Qed.

Lemma add_length : forall h parent child h', add h parent child = Ok h' -> length h' = length h.
Proof.
  unfold add. intros h parent child h' H.
  apply rbind_ok in H as (px & _ & H). apply rbind_ok in H as (cx & _ & H).
  apply rbind_ok in H as (h1 & H1 & H). apply element_add_length in H1.
  destruct (is_base_drawable _); [destruct (is_drawable _); [|destruct (is_animation _)]|];
    try discriminate; injection H as <-; exact H1.
Qed.

(** ** Events of an element are recorded only while it is being created *)

Lemma grows_refl : forall t st, grows t st st.
Proof. intros t st. split; [lia|]. exists []. rewrite app_nil_r. auto. Qed.

Lemma grows_trans : forall t t' x s1 s2,
  grows t x s1 -> grows t' s1 s2 ->
  (forall e, t' = Some e -> length (heap_of x) <= e \/ t = Some e) ->
  grows t x s2.
Proof.
  intros t t' x s1 s2 (L1 & l1 & E1 & F1) (L2 & l2 & E2 & F2) Ht.
  split; [lia|]. exists (l1 ++ l2). split; [rewrite E2, E1, app_assoc; reflexivity|].
  apply Forall_app. split; [exact F1|].
  eapply Forall_impl; [|exact F2]. intros ev [Hev|Hev]; [left; lia|].
  destruct (Ht _ Hev); auto.
Qed.

Lemma grows_same_r : forall t x z y,
  grows t x z -> heap_of y = heap_of z -> log y = log z -> grows t x y.
Proof. intros t x z y (L & l & E & F) Hh Hl. split; [rewrite Hh; exact L|]. exists l. rewrite Hl. auto. Qed.

Lemma grows_heap_r : forall t x z h,
  grows t x z -> length (heap_of z) <= length h -> grows t x (upd_heap h z).
Proof. intros t x z h (L & l & E & F) Hh. split; [cbn; lia|]. exists l. auto. Qed.

Lemma grows_record_r : forall t x z ev,
  grows t x z -> (length (heap_of x) <= ev_element ev \/ t = Some (ev_element ev)) ->
  grows t x (upd_log (log z ++ [ev]) z).
Proof.
  intros t x z ev (L & l & E & F) Hev. split; [exact L|].
  exists (l ++ [ev]). cbn [log upd_log]. rewrite E, app_assoc. split; [reflexivity|].
  apply Forall_app. auto.
Qed.

Lemma for_each_grows : forall t k ns st a st',
  (forall n s a s', k n s = Ok (a, s') -> grows t s s') ->
  for_each k ns st = Ok (a, st') -> grows t st st'.
Proof.
  intros t k ns. induction ns as [|n ns IH]; intros st a st' Hk H; cbn [for_each] in H.
  - apply ret_ok in H as [_ <-]. apply grows_refl.
  - apply bind_ok in H as (b & s1 & H1 & H2).
    eapply grows_trans; [apply (Hk _ _ _ _ H1) | apply (IH _ _ _ Hk H2) |]. auto.
Qed.

Lemma pop_element_ok : forall e s a s', pop_element e s = Ok (a, s') ->
  exists rest, s' = upd_elements rest s.
Proof.
  unfold pop_element. intros e s a s' H. destruct (elements s) as [|e' rest]; [discriminate|].
  destruct (Nat.eqb e e'); [|discriminate]. injection H as _ <-. eauto.
Qed.

Lemma pop_type_ok : forall t s a s', pop_type t s = Ok (a, s') ->
  exists rest, s' = upd_types rest s.
Proof.
  unfold pop_type. intros t s a s' H. destruct (types s) as [|t' rest]; [discriminate|].
  destruct (ty_eq_dec t t'); [|discriminate]. injection H as _ <-. eauto.
Qed.

Lemma class_of_ok : forall e s c s', class_of e s = Ok (c, s') -> s' = s.
Proof.
  unfold class_of. intros e s c s' H. destruct (elem_of (heap_of s) e); [|discriminate].
  injection H as _ <-. reflexivity.
Qed.

Ltac inv_all :=
  repeat match goal with
  | H : pop_element _ _ = Ok _ |- _ =>
      let r := fresh "rest" in apply pop_element_ok in H; destruct H as [r ->]
  | H : pop_type _ _ = Ok _ |- _ =>
      let r := fresh "rest" in apply pop_type_ok in H; destruct H as [r ->]
  | H : class_of _ _ = Ok _ |- _ => apply class_of_ok in H; subst
  | H : build_ _ _ _ = Ok _ |- _ => unfold build_ in H
  | H : push_element _ _ = Ok _ |- _ => unfold push_element in H
  | H : push_type _ _ = Ok _ |- _ => unfold push_type in H
  | H : record _ _ = Ok _ |- _ => unfold record in H
  | H : modify _ _ = Ok _ |- _ => apply modify_ok in H; cbv beta in H; subst
  | H : (fun _ => _) _ _ = Ok _ |- _ => cbv beta in H
  | _ => progress bind_inv_st
  end.

Ltac grow_back :=
  repeat match goal with
  | |- grows _ ?x ?x => apply grows_refl
  | |- grows _ _ (upd_heap _ _) => apply grows_heap_r
  | |- grows _ _ (upd_log (log _ ++ [_]) _) => apply grows_record_r
  | |- grows _ _ (upd_elements _ ?z) => apply (grows_same_r _ _ z); [|reflexivity|reflexivity]
  | |- grows _ _ (upd_types _ ?z) => apply (grows_same_r _ _ z); [|reflexivity|reflexivity]
  | |- grows _ _ (upd_templates _ ?z) => apply (grows_same_r _ _ z); [|reflexivity|reflexivity]
  | |- grows _ _ (upd_search_paths _ ?z) => apply (grows_same_r _ _ z); [|reflexivity|reflexivity]
  | |- grows _ _ (upd_including _ ?z) => apply (grows_same_r _ _ z); [|reflexivity|reflexivity]
  | |- grows _ _ (upd_included _ ?z) => apply (grows_same_r _ _ z); [|reflexivity|reflexivity]
  | |- grows _ _ (upd_opened _ ?z) => apply (grows_same_r _ _ z); [|reflexivity|reflexivity]
  | G : grows _ ?z ?y |- grows _ _ ?y => eapply grows_trans; [|exact G|]
  end.

Ltac grow_side :=
  first
  [ let e := fresh "e" in let He := fresh "He" in
    intros e He; cbn [target] in He; first [ discriminate He
                       | injection He as <-; first [right; reflexivity | left; cbn in *; lia] ]
  | right; reflexivity
  | left; cbn in *; lia
  | cbn [heap_of upd_heap upd_elements upd_log upd_types] in *; rewrite ?length_app in *; cbn in *; lia ].

Lemma run_grows : forall fuel c st r st', run fuel c st = Ok (r, st') -> grows (target c) st st'.
Proof.
  induction fuel as [|f IH]; intros c st r st' H; [discriminate|].
  assert (Hrun : forall c s r s', run f c s = Ok (r, s') -> grows (target c) s s') by exact IH.
  assert (Hcreate : forall element name ch tok s r s',
            _build_Create (run f) element name ch tok s = Ok (r, s') -> grows None s s').
  { intros element name ch tok s r0 s' Hc. unfold _build_Create in Hc.
    destruct (truthy name); [discriminate|].
    inv_all.
    match goal with H8 : build_children (run f) ch _ = Ok _ |- _ =>
      apply (for_each_grows None) in H8;
      [|intros n sA aA sB Hk; inv_all;
        match goal with Hb : run _ _ _ = Ok _ |- _ => apply Hrun in Hb end; grow_back; grow_side] end.
    match goal with H5 : _ (upd_heap _ _) = Ok _ |- _ => cbn [elements upd_heap heap_of] in H5 end.
    match goal with H6 : run f (CApply _ _ _) _ = Ok _ |- _ => apply Hrun in H6 end.
    destruct (elements s) as [|parent rest0]; inv_all;
      [|destruct (add _ parent _) as [h|[]] eqn:Ha; inv_all; apply add_length in Ha];
      grow_back; grow_side.
  }
  destruct c as [n|el name tok|fn]; cbn [target].
  - destruct (is_expression n) eqn:Hexpr.
    { rewrite (expression_pure _ _ _ _ _ Hexpr H). apply grows_refl. }
    destruct n; try discriminate Hexpr; cbn [run build_node] in H.
    + (* Include *)
      unfold _build_Include in H. inv_all.
      destruct (_find_scene_file _ _) as [fn|[]]; try destruct (partition_nl _); inv_all.
      match goal with Hb : run _ _ _ = Ok _ |- _ => apply Hrun in Hb end.
      grow_back; grow_side.
    + (* Template *)
      unfold _build_Template in H. inv_all.
      destruct (lookup_template _ _); inv_all. grow_back; grow_side.
    + (* Scene *)
      unfold _build_Scene in H. inv_all.
      destruct (is_including st); cbn [negb] in H; [|apply Hcreate in H; exact H].
      inv_all.
      match goal with H1 : for_each _ _ _ = Ok _ |- _ =>
        apply (for_each_grows None) in H1;
        [|intros n sA aA sB Hk; revert Hk; destruct n; cbv beta iota; intro Hk; inv_all;
          try (match goal with Hb : run _ _ _ = Ok _ |- _ => apply Hrun in Hb end;
               match goal with H3 : (match ?w with _ => _ end) _ = Ok _ |- _ => destruct w end;
               inv_all);
          grow_back; grow_side] end.
      grow_back; grow_side.
    + (* Create *)
      apply Hcreate in H. exact H.
    + (* Define *)
      unfold _build_Define in H. inv_all.
      match goal with Hb : run _ _ _ = Ok _ |- _ => apply Hrun in Hb end.
      destruct (define _ _ _ _ _ _ _ _) as [h|[]] eqn:Hd; inv_all.
      apply define_length in Hd. grow_back; grow_side.
    + (* Assign *)
      unfold _build_Assign in H. inv_all.
      destruct (get _ _ _) as [?|[]]; inv_all.
      destruct (lookup_prop _ _ _) as [p|]; inv_all.
      destruct (p_types p) as [|t ts]; inv_all.
      match goal with Hb : run _ _ _ = Ok _ |- _ => apply Hrun in Hb end.
      destruct (set _ _ _ _) as [h|[]] eqn:Hs; inv_all.
      apply set_length in Hs. grow_back; grow_side.
    + (* MemberAccess *)
      unfold _build_MemberAccess in H. inv_all.
      match goal with Hb : run _ _ _ = Ok _ |- _ => apply Hrun in Hb end.
      match goal with H3 : (match ?w with _ => _ end) _ = Ok _ |- _ => destruct w end;
        inv_all; grow_back; grow_side.
    + (* UnaryOp *)
      inv_all.
      match goal with Hb : run _ _ _ = Ok _ |- _ => apply Hrun in Hb end.
      grow_back; grow_side.
    + (* BinOp *)
      inv_all.
      repeat match goal with Hb : run _ _ _ = Ok _ |- _ => apply Hrun in Hb end.
      grow_back; grow_side.
    + (* Call *)
      unfold _build_Call in H. bind_inv.
      assert (Hargs : forall l s0 vs s1,
                (fix build_args (l : list node) : M (list value) :=
                   match l with
                   | [] => ret []
                   | a :: l' => r <- build_ (run f) a ;; v <- expect_value r ;;
                                vs <- build_args l' ;; ret (v :: vs)
                   end) l s0 = Ok (vs, s1) -> grows None s0 s1).
      { induction l as [|x l IHl]; intros s0 vs s1 Hb; [bind_inv; apply grows_refl|].
        inv_all.
        match goal with Hb : run _ _ _ = Ok _ |- _ => apply Hrun in Hb end.
        match goal with Hb : _ = Ok _ |- _ => apply IHl in Hb end.
        grow_back; grow_side. }
      match goal with H1 : _ st = Ok (_, ?s) |- _ => apply Hargs in H1 end.
      destruct (function_defined name); bind_inv; grow_back; grow_side.
  - (* CApply *)
    cbn [run] in H. unfold _apply_template in H. inv_all.
    destruct (lookup_template name (templates st)) as [[c|t]|]; inv_all.
    + match goal with Hb : on_ready _ _ = Ok _ |- _ => apply on_ready_length in Hb end.
      grow_back; grow_side.
    + match goal with Hb : run _ _ _ = Ok _ |- _ => apply Hrun in Hb end.
      match goal with H1 : for_each _ _ _ = Ok _ |- _ =>
        apply (for_each_grows (Some el)) in H1;
        [|intros n sA aA sB Hk; inv_all;
          match goal with Hb : run _ _ _ = Ok _ |- _ => apply Hrun in Hb end;
          grow_back; grow_side] end.
      grow_back; grow_side.
  - (* CInclude *)
    cbn [run] in H. unfold _include in H. inv_all.
    destruct (mem_string _ (including st)); inv_all; [grow_back|].
    destruct (mem_string _ (included st)); inv_all; [grow_back|].
    destruct (read_scene _); inv_all.
    match goal with Hb : run _ _ _ = Ok _ |- _ => apply Hrun in Hb end.
    grow_back; grow_side.
Qed.


Lemma grows_none_events : forall s s' el, grows None s s' -> el < length (heap_of s) ->
  el < length (heap_of s') /\ exists l, log s' = log s ++ l /\ events_of el l = [].
Proof.
  intros s s' el [Hlen [l [Hl Hf]]] Hel. split; [lia|]. exists l. split; [exact Hl|].
  clear Hl Hlen. unfold events_of. induction Hf as [|ev l Hev Hf IHf]; [reflexivity|].
  cbn [filter]. rewrite IHf. destruct Hev as [Hev|Hev]; [|discriminate].
  destruct (Nat.eqb_spec (ev_element ev) el); [lia|reflexivity].
Qed.

Lemma events_of_app : forall el l1 l2, events_of el (l1 ++ l2) = events_of el l1 ++ events_of el l2.
Proof. intros. unfold events_of. apply filter_app. Qed.

Lemma directives_events : forall f el nm ns s a s',
  for_each (fun c => record (EvDirective el nm c) ;;; _ <- build_ (run f) c ;; ret tt) ns s
    = Ok (a, s') ->
  el < length (heap_of s) ->
  el < length (heap_of s') /\
  exists l, log s' = log s ++ l /\ events_of el l = map (EvDirective el nm) ns.
Proof.
  induction ns as [|c ns IHns]; intros s a s' H Hel; cbn [for_each] in H.
  - apply ret_ok in H as [_ <-]. split; [exact Hel|]. exists []. rewrite app_nil_r. auto.
  - apply bind_ok in H as (u & s1 & H1 & H2).
    unfold record, build_ in H1. apply bind_ok in H1 as (u1 & s2 & H3 & H4).
    apply modify_ok in H3. subst s2.
    apply bind_ok in H4 as (r & s3 & H5 & H6). apply ret_ok in H6 as [_ <-].
    apply run_grows in H5. cbn [target] in H5.
    apply grows_none_events with (el := el) in H5 as [Hel3 [l1 [Hl1 He1]]];
      [|cbn [heap_of upd_log]; exact Hel].
    apply IHns in H2 as [Hel' [l2 [Hl2 He2]]]; [|exact Hel3].
    split; [exact Hel'|].
    exists (EvDirective el nm c :: l1 ++ l2). split.
    + rewrite Hl2, Hl1. cbn [log upd_log]. rewrite <- !app_assoc. reflexivity.
    + unfold events_of at 1. cbn [filter ev_element]. rewrite Nat.eqb_refl.
      change (filter _ (l1 ++ l2)) with (events_of el (l1 ++ l2)).
      rewrite events_of_app, He1, He2. reflexivity.
Qed.

(** C2: applying a template to an element is base-first.  The events a
    successful application records for the element are those of its
    inherit target, applied first (recursively, down to the concrete type's
    [on_ready] call), followed by one per own directive in declared order;
    a template without an inherit target inherits from "Drawable". *)
Theorem apply_template_base_first :
  (forall t, t_inherit t = None -> inherit_or_default t = "Drawable"%string) /\
  forall fuel el name tok st r st',
  run fuel (CApply el name tok) st = Ok (r, st') ->
  el < length (heap_of st) ->
  exists l, log st' = log st ++ l /\
    events_of el l = template_events fuel (templates st) el name.
Proof.
  split; [intros t Ht; unfold inherit_or_default; rewrite Ht; reflexivity|].
  induction fuel as [|f IH]; intros el name tok st r st' H Hel; [discriminate|].
  cbn [run] in H. unfold _apply_template in H.
  apply bind_ok in H as (s0 & s1 & Hg & H). apply get_state_ok in Hg as [-> ->].
  cbn [template_events].
  destruct (lookup_template name (templates st)) as [[c|t]|] eqn:Hlk.
  - unfold record in H.
    apply bind_ok in H as (u & s2 & H1 & H). apply modify_ok in H1. subst s2.
    apply bind_ok in H as (s3 & s4 & H1 & H). apply get_state_ok in H1 as [-> ->].
    apply bind_ok in H as (h & s5 & H1 & H). apply lift_ok in H1 as [_ ->].
    apply bind_ok in H as (u' & s6 & H1 & H). apply modify_ok in H1. subst s6.
    apply ret_ok in H as [_ ->].
    exists [EvReady el]. cbn [log upd_log upd_heap]. split; [reflexivity|].
    unfold events_of. cbn [filter ev_element]. rewrite Nat.eqb_refl. reflexivity.
  - unfold push_element in H.
    apply bind_ok in H as (u & s2 & H1 & H). apply modify_ok in H1. subst s2.
    apply bind_ok in H as (r1 & s3 & H1 & H).
    pose proof H1 as Hg. apply run_grows in Hg. destruct Hg as [Hlen3 _].
    apply IH in H1 as [l1 [Hl1 He1]]; [|exact Hel].
    apply bind_ok in H as (u2 & s4 & H2 & H).
    apply directives_events in H2 as [_ [l2 [Hl2 He2]]];
      [|cbn [heap_of upd_elements] in Hlen3; lia].
    apply bind_ok in H as (u3 & s5 & H3 & H). apply ret_ok in H as [_ <-].
    unfold pop_element in H3. destruct (elements s4) as [|e' rest]; [discriminate|].
    destruct (Nat.eqb el e'); [|discriminate]. injection H3 as _ <-.
    exists (l1 ++ l2). cbn [log upd_elements]. split.
    + rewrite Hl2, Hl1. cbn [log upd_elements]. symmetry. apply app_assoc.
    + rewrite events_of_app, He1, He2. reflexivity.
  - apply fail_ok in H as [].
Qed.

(** ** Stack discipline *)

Lemma keeps_refl : forall st, keeps_stacks st st.
Proof. intros st. repeat split. Qed.

Lemma keeps_trans : forall a b c, keeps_stacks a b -> keeps_stacks b c -> keeps_stacks a c.
Proof. unfold keeps_stacks. intros a b c (? & ? & ? & ?) (? & ? & ? & ?). repeat split; congruence. Qed.

Lemma for_each_keeps : forall k ns st a st',
  (forall n s a s', k n s = Ok (a, s') -> keeps_stacks s s') ->
  for_each k ns st = Ok (a, st') -> keeps_stacks st st'.
Proof.
  intros k ns. induction ns as [|n ns IH]; intros st a st' Hk H; cbn [for_each] in H.
  - apply ret_ok in H as [_ <-]. apply keeps_refl.
  - apply bind_ok in H as (b & s1 & H1 & H2).
    exact (keeps_trans _ _ _ (Hk _ _ _ _ H1) (IH _ _ _ Hk H2)).
Qed.

Lemma pop_element_inv : forall e s a s', pop_element e s = Ok (a, s') ->
  exists rest, elements s = e :: rest /\ s' = upd_elements rest s.
Proof.
  unfold pop_element. intros e s a s' H. destruct (elements s) as [|e' rest]; [discriminate|].
  destruct (Nat.eqb_spec e e'); [subst|discriminate]. injection H as _ <-. eauto.
Qed.

Lemma pop_type_inv : forall t s a s', pop_type t s = Ok (a, s') ->
  exists rest, types s = t :: rest /\ s' = upd_types rest s.
Proof.
  unfold pop_type. intros t s a s' H. destruct (types s) as [|t' rest]; [discriminate|].
  destruct (ty_eq_dec t t'); [subst|discriminate]. injection H as _ <-. eauto.
Qed.

Ltac inv_stk :=
  repeat match goal with
  | H : pop_element _ _ = Ok _ |- _ =>
      let r := fresh "rest" in let Hr := fresh "Hr" in
      apply pop_element_inv in H; destruct H as (r & Hr & ->)
  | H : pop_type _ _ = Ok _ |- _ =>
      let r := fresh "rest" in let Hr := fresh "Hr" in
      apply pop_type_inv in H; destruct H as (r & Hr & ->)
  | H : class_of _ _ = Ok _ |- _ => apply class_of_ok in H; subst
  | H : build_ _ _ _ = Ok _ |- _ => unfold build_ in H
  | H : push_element _ _ = Ok _ |- _ => unfold push_element in H
  | H : push_type _ _ = Ok _ |- _ => unfold push_type in H
  | H : record _ _ = Ok _ |- _ => unfold record in H
  | H : modify _ _ = Ok _ |- _ => apply modify_ok in H; cbv beta in H; subst
  | H : (fun _ => _) _ _ = Ok _ |- _ => cbv beta in H
  | _ => progress bind_inv_st
  end.

Ltac ks_close :=
  unfold keeps_stacks in *;
  repeat match goal with H : _ /\ _ |- _ => destruct H end;
  cbn [elements types search_paths including upd_heap upd_log upd_templates upd_elements
       upd_types upd_search_paths upd_including upd_included upd_opened] in *;
  repeat split; congruence.

(** A successful builder request leaves the stacks as it found them: every
    push of an element, a type, a search directory or an include is undone
    by the matching pop. *)
Lemma run_keeps_stacks : forall fuel c st r st',
  run fuel c st = Ok (r, st') -> keeps_stacks st st'.
Proof.
  induction fuel as [|f IH]; intros c st r st' H; [discriminate|].
  assert (Hrun : forall c s r s', run f c s = Ok (r, s') -> keeps_stacks s s') by exact IH.
  assert (Hcreate : forall element name ch tok s r s',
            _build_Create (run f) element name ch tok s = Ok (r, s') -> keeps_stacks s s').
  { intros element name ch tok s r0 s' Hc. unfold _build_Create in Hc.
    destruct (truthy name); [discriminate|].
    inv_stk.
    match goal with H8 : build_children (run f) ch _ = Ok _ |- _ =>
      apply for_each_keeps in H8;
      [|intros n sA aA sB Hk; inv_stk;
        match goal with Hb : run _ _ _ = Ok _ |- _ => apply Hrun in Hb end; ks_close] end.
    match goal with H6 : run f (CApply _ _ _) _ = Ok _ |- _ => apply Hrun in H6 end.
    match goal with H5 : _ (upd_heap _ _) = Ok _ |- _ => cbn [elements upd_heap heap_of] in H5 end.
    destruct (elements s) as [|parent rest0] eqn:Es; inv_stk;
      [|destruct (add _ parent _) as [h|[]]; inv_stk]; ks_close.
  }
  destruct c as [n|el name tok|fn].
  - destruct (is_expression n) eqn:Hexpr.
    { rewrite (expression_pure _ _ _ _ _ Hexpr H). apply keeps_refl. }
    destruct n; try discriminate Hexpr; cbn [run build_node] in H.
    + (* Include *)
      unfold _build_Include in H. inv_stk.
      destruct (_find_scene_file _ _) as [fn|[]]; try destruct (partition_nl _); inv_stk.
      match goal with Hb : run _ _ _ = Ok _ |- _ => apply Hrun in Hb end. ks_close.
    + (* Template *)
      unfold _build_Template in H. inv_stk.
      destruct (lookup_template _ _); inv_stk. ks_close.
    + (* Scene *)
      unfold _build_Scene in H. inv_stk.
      destruct (is_including st); cbn [negb] in H; [|exact (Hcreate _ _ _ _ _ _ _ H)].
      inv_stk.
      match goal with H1 : for_each _ _ _ = Ok _ |- _ => apply for_each_keeps in H1 end.
      2:{ intros n sA aA sB Hk. revert Hk. destruct n; cbv beta iota; intro Hk; inv_stk.
          all: try (match goal with Hb : run _ _ _ = Ok _ |- _ => apply Hrun in Hb end;
               match goal with H3 : (match ?w with _ => _ end) _ = Ok _ |- _ => destruct w end;
               inv_stk).
          all: ks_close. }
      ks_close.
    + (* Create *)
      exact (Hcreate _ _ _ _ _ _ _ H).
    + (* Define *)
      unfold _build_Define in H. inv_stk.
      match goal with Hb : run _ _ _ = Ok _ |- _ => apply Hrun in Hb end.
      destruct (define _ _ _ _ _ _ _ _) as [h|[]]; inv_stk. ks_close.
    + (* Assign *)
      unfold _build_Assign in H. inv_stk.
      destruct (get _ _ _) as [?|[]]; inv_stk.
      destruct (lookup_prop _ _ _) as [p|]; inv_stk.
      destruct (p_types p) as [|t ts]; inv_stk.
      match goal with Hb : run _ _ _ = Ok _ |- _ => apply Hrun in Hb end.
      destruct (set _ _ _ _) as [h|[]]; inv_stk. ks_close.
    + (* MemberAccess *)
      unfold _build_MemberAccess in H. inv_stk.
      match goal with Hb : run _ _ _ = Ok _ |- _ => apply Hrun in Hb end.
      match goal with H3 : (match ?w with _ => _ end) _ = Ok _ |- _ => destruct w end;
        inv_stk; ks_close.
    + (* UnaryOp *)
      inv_stk.
      match goal with Hb : run _ _ _ = Ok _ |- _ => apply Hrun in Hb end. ks_close.
    + (* BinOp *)
      inv_stk.
      repeat match goal with Hb : run _ _ _ = Ok _ |- _ => apply Hrun in Hb end. ks_close.
    + (* Call *)
      unfold _build_Call in H. bind_inv.
      assert (Hargs : forall l s0 vs s1,
                (fix build_args (l : list node) : M (list value) :=
                   match l with
                   | [] => ret []
                   | a :: l' => r <- build_ (run f) a ;; v <- expect_value r ;;
                                vs <- build_args l' ;; ret (v :: vs)
                   end) l s0 = Ok (vs, s1) -> keeps_stacks s0 s1).
      { induction l as [|x l IHl]; intros s0 vs s1 Hb; [bind_inv; apply keeps_refl|].
        inv_stk.
        match goal with Hb : run _ _ _ = Ok _ |- _ => apply Hrun in Hb end.
        match goal with Hb : _ = Ok _ |- _ => apply IHl in Hb end.
        ks_close. }
      match goal with H1 : _ st = Ok (_, ?s) |- _ => apply Hargs in H1 end.
      destruct (function_defined name); bind_inv; ks_close.
  - (* CApply *)
    cbn [run] in H. unfold _apply_template in H. inv_stk.
    destruct (lookup_template name (templates st)) as [[c|t]|]; inv_stk; [ks_close|].
    match goal with Hb : run _ _ _ = Ok _ |- _ => apply Hrun in Hb end.
    match goal with H1 : for_each _ _ _ = Ok _ |- _ => apply for_each_keeps in H1 end.
    2:{ intros n sA aA sB Hk. inv_stk.
        match goal with Hb : run _ _ _ = Ok _ |- _ => apply Hrun in Hb end. ks_close. }
    ks_close.
  - (* CInclude *)
    cbn [run] in H. unfold _include in H. inv_stk.
    destruct (mem_string _ (including st)); inv_stk; [apply keeps_refl|].
    destruct (mem_string _ (included st)); inv_stk; [apply keeps_refl|].
    destruct (read_scene _); inv_stk.
    match goal with Hb : run _ _ _ = Ok _ |- _ => apply Hrun in Hb end.
    unfold keeps_stacks in *.
    repeat match goal with H : _ /\ _ |- _ => destruct H end.
    cbn [elements types search_paths including upd_heap upd_log upd_templates upd_elements
         upd_types upd_search_paths upd_including upd_included upd_opened] in *.
    repeat match goal with E : _ = _ |- _ => rewrite E end.
    rewrite !removelast_last. repeat split.
Qed.

(** Extra X1: a successful builder request undoes every push it makes: the
    stack of active elements, the stack of active types, the search
    directories and the include stack are as before. *)
Theorem builder_restores_stacks : forall fuel c st r st',
  run fuel c st = Ok (r, st') ->
  elements st' = elements st /\ types st' = types st /\
  search_paths st' = search_paths st /\ including st' = including st.
Proof. intros fuel c st r st' H. exact (run_keeps_stacks fuel c st r st' H). Qed.

(** ** Including a file once *)

Lemma include_seen : forall f fn st,
  mem_string (abspath fn) (including st) = true \/ mem_string (abspath fn) (included st) = true ->
  _include (run f) fn st = Ok (PNone, st).
Proof.
  intros f fn st Hseen. unfold _include, bind, get_state.
  destruct (mem_string (abspath fn) (including st)) eqn:E1; [reflexivity|].
  destruct Hseen as [H|H]; [congruence|]. rewrite H. reflexivity.
Qed.

(** Extra X2: once an include of a file has succeeded, including the same
    file again succeeds without doing anything: the file is not read a
    second time and the builder state is unchanged. *)
Theorem include_then_include_noop : forall fuel fuel' fn st r st',
  run fuel (CInclude fn) st = Ok (r, st') ->
  run (S fuel') (CInclude fn) st' = Ok (PNone, st').
Proof.
  intros fuel fuel' fn st r st' H. cbn [run]. apply include_seen.
  destruct fuel as [|f]; [discriminate|]. cbn [run] in H. unfold _include in H. inv_stk.
  destruct (mem_string _ (including st)) eqn:E1; inv_stk; [left; exact E1|].
  destruct (mem_string _ (included st)) eqn:E2; inv_stk; [right; exact E2|].
  destruct (read_scene _); inv_stk.
  right. cbn [included upd_search_paths upd_included]. cbn [mem_string].
  rewrite String.eqb_refl. reflexivity.
Qed.

(** ** Templates and element types *)

Lemma element_type_mono : forall f reg n tok c,
  get_element_type_aux f reg n tok = Ok c -> get_element_type_aux (S f) reg n tok = Ok c.
Proof.
  induction f as [|f IH]; intros reg n tok c H; [discriminate|].
  cbn [get_element_type_aux] in H |- *.
  destruct (lookup_template n reg) as [[c'|t]|]; try exact H.
  apply IH. exact H.
Qed.

Lemma element_type_step : forall f reg n tok,
  get_element_type_aux (S f) reg n tok =
  match lookup_template n reg with
  | None => Err (create_error ("Creating undefined " ++ repr n ++ " template") "" tok)
  | Some (TTemplate t) => get_element_type_aux f reg (inherit_or_default t) None
  | Some (TType c) => Ok c
  end.
Proof. reflexivity. Qed.

Lemma lookup_template_other : forall name x reg n,
  n <> name -> lookup_template n ((name, x) :: reg) = lookup_template n reg.
Proof.
  intros name x reg n Hn. cbn [lookup_template].
  destruct (String.eqb_spec name n); [congruence|reflexivity].
Qed.

Lemma element_type_extend : forall f name x reg n tok c,
  lookup_template name reg = None ->
  get_element_type_aux f reg n tok = Ok c ->
  get_element_type_aux f ((name, x) :: reg) n tok = Ok c.
Proof.
  induction f as [|f IH]; intros name x reg n tok c Hn H; [discriminate|].
  cbn [get_element_type_aux] in H |- *.
  destruct (string_dec n name) as [->|Hne].
  - rewrite Hn in H. discriminate.
  - rewrite lookup_template_other by exact Hne.
    destruct (lookup_template n reg) as [[c'|t]|]; try exact H.
    apply IH; assumption.
Qed.

Lemma build_template_eq : forall fuel name inherit ch tok st,
  run (S fuel) (CBuild (NTemplate name inherit ch tok)) st =
  match lookup_template name (templates st) with
  | Some _ => Err (create_error ("Redeclaration of " ++ repr name) "" tok)
  | None => Ok (PNone, upd_templates ((name, TTemplate (mkTemplate name inherit ch tok))
                                      :: templates st) st)
  end.
Proof.
  intros. cbn [run build_node]. unfold _build_Template, bind, get_state.
  destruct (lookup_template name (templates st)); reflexivity.
Qed.

(** Extra X4: a template registered by a [Template] directive creates elements
    of the type its inherit target (by default "Drawable") resolves to. *)
Theorem template_element_type : forall fuel name inherit ch tok st r st' c tok',
  run (S fuel) (CBuild (NTemplate name inherit ch tok)) st = Ok (r, st') ->
  get_element_type (templates st) (inherit_or_default (mkTemplate name inherit ch tok)) None = Ok c ->
  get_element_type (templates st') name tok' = Ok c.
Proof.
  intros fuel name inherit ch tok st r st' c tok' H Hc.
  rewrite build_template_eq in H.
  destruct (lookup_template name (templates st)) eqn:Hn; [discriminate|].
  injection H as _ <-. unfold get_element_type in *.
  cbn [templates upd_templates length]. rewrite element_type_step.
  cbn [lookup_template]. rewrite String.eqb_refl.
  apply element_type_extend; [exact Hn|]. exact Hc.
Qed.

Lemma element_type_cycle : forall f reg names n tok,
  inherit_closed reg names -> In n names ->
  get_element_type_aux f reg n tok = Err RecursionError.
Proof.
  induction f as [|f IH]; intros reg names n tok Hcl Hn; [reflexivity|].
  destruct (Hcl n Hn) as (t & Ht & Hin).
  cbn [get_element_type_aux]. rewrite Ht. apply (IH reg names); assumption.
Qed.

(** Extra X5: when templates inherit from each other in a cycle (a template
    inheriting from itself included), creating an element of any of them
    fails with [RecursionError] before any element is constructed. *)
Theorem create_inherit_cycle : forall fuel names element ch tok st,
  inherit_closed (templates st) names -> In element names ->
  run (S fuel) (CBuild (NCreate element None ch tok)) st = Err RecursionError.
Proof.
  intros fuel names element ch tok st Hcl Hin.
  cbn [run build_node]. unfold _build_Create. cbn [truthy].
  unfold bind at 1, get_state. unfold bind at 1, lift. unfold get_element_type.
  rewrite (element_type_cycle _ _ names element tok Hcl Hin). reflexivity.
Qed.

(** ** The scene tree only grows *)

Lemma ext_refl : forall h, extends_tree h h.
Proof.
  intros h. split; [lia|]. intros e x H. exists x, []. rewrite app_nil_r. auto.
Qed.

Lemma ext_trans : forall a b c, extends_tree a b -> extends_tree b c -> extends_tree a c.
Proof.
  intros a b c [L1 H1] [L2 H2]. split; [lia|]. intros e x Hx.
  destruct (H1 e x Hx) as (y & l & Hy & C1 & P1 & K1).
  destruct (H2 e y Hy) as (z & l' & Hz & C2 & P2 & K2).
  exists z, (l ++ l'). repeat split; try congruence.
  rewrite K2, K1, app_assoc. reflexivity.
Qed.

Lemma ext_app : forall h x, extends_tree h (h ++ [x]).
Proof.
  intros h x. split; [rewrite length_app; lia|]. intros e y H.
  exists y, []. rewrite app_nil_r. split; [apply nth_error_app_old; exact H|auto].
Qed.

Lemma ext_replace : forall h e x y l,
  nth_error h e = Some x -> e_cls y = e_cls x -> e_parent y = e_parent x ->
  e_children y = e_children x ++ l -> extends_tree h (replace_nth h e y).
Proof.
  intros h e x y l Hx C P K. split; [rewrite replace_nth_length; lia|].
  intros e' x' H'. destruct (Nat.eq_dec e e') as [<-|Hne].
  - rewrite Hx in H'. injection H' as <-. exists y, l.
    split; [eapply nth_error_replace_nth_same; exact Hx|auto].
  - exists x', []. rewrite nth_error_replace_nth_other by exact Hne. rewrite app_nil_r. auto.
Qed.

Lemma elem_of_ok : forall h e x, elem_of h e = Ok x -> nth_error h e = Some x.
Proof. unfold elem_of. intros h e x H. destruct (nth_error h e); [congruence|discriminate]. Qed.

Lemma define_ext : forall h e name v tys r c rel h',
  define h e name v tys r c rel = Ok h' -> extends_tree h h'.
Proof.
  unfold define. intros h e name v tys r c rel h' H.
  apply rbind_ok in H as (x & Hx & H). apply elem_of_ok in Hx.
  destruct (find_prop name (e_props x)); [discriminate|].
  injection H as <-. apply (ext_replace _ _ x _ []); cbn; auto. symmetry. apply app_nil_r.
Qed.

Lemma set_ext : forall h e name v h', set h e name v = Ok h' -> extends_tree h h'.
Proof.
  unfold set. intros h e name v h' H.
  apply rbind_ok in H as (x & Hx & H). apply elem_of_ok in Hx.
  destruct (find_prop name (e_props x)) as [p|]; [|discriminate].
  destruct (p_readonly p); [discriminate|]. destruct (p_constant p); [discriminate|].
  destruct (negb (type_ok (p_types p) v)); [discriminate|].
  destruct (cycle_from _ _ _ _); [discriminate|].
  injection H as <-. unfold store. apply (ext_replace _ _ x _ []); cbn; auto.
  symmetry. apply app_nil_r.
Qed.

Ltac ext_go :=
  first [ apply ext_refl
        | match goal with H : extends_tree ?a _ |- extends_tree ?a _ =>
            eapply ext_trans; [exact H | ext_go] end ].

Ltac ext_close :=
  cbn [heap_of upd_heap upd_elements upd_types upd_templates upd_search_paths
       upd_including upd_included upd_opened upd_log] in *;
  repeat match goal with H : extends_tree ?a ?a |- _ => clear H end;
  solve [ext_go].

Ltac ext_inv :=
  repeat match goal with
  | H : rbind _ _ = Ok _ |- _ =>
      let a := fresh "a" in let Ha := fresh "Ha" in
      apply rbind_ok in H; destruct H as (a & Ha & H)
  | H : define _ _ _ _ _ _ _ _ = Ok _ |- _ => apply define_ext in H
  | H : set _ _ _ _ = Ok _ |- _ => apply set_ext in H
  | H : Ok _ = Ok _ |- _ => injection H as H; subst
  end.

Lemma on_ready_Drawable_ext : forall h e h', on_ready_Drawable h e = Ok h' -> extends_tree h h'.
Proof. unfold on_ready_Drawable. intros h e h' H. ext_inv. ext_close. Qed.

Lemma define_color_fill_ext : forall h e h', define_color_fill h e = Ok h' -> extends_tree h h'.
Proof. unfold define_color_fill. intros h e h' H. ext_inv. ext_close. Qed.

Lemma define_outline_ext : forall h e h', define_outline h e = Ok h' -> extends_tree h h'.
Proof. unfold define_outline. intros h e h' H. ext_inv. ext_close. Qed.

Ltac ext_inv_hooks :=
  ext_inv;
  repeat (match goal with
          | H : on_ready_Drawable _ _ = Ok _ |- _ => apply on_ready_Drawable_ext in H
          | H : define_color_fill _ _ = Ok _ |- _ => apply define_color_fill_ext in H
          | H : define_outline _ _ = Ok _ |- _ => apply define_outline_ext in H
          end; ext_inv).

Lemma on_ready_Ellipse_ext : forall h e h', on_ready_Ellipse h e = Ok h' -> extends_tree h h'.
Proof. unfold on_ready_Ellipse. intros h e h' H. ext_inv_hooks. ext_close. Qed.

Lemma on_ready_ext : forall h e h', on_ready h e = Ok h' -> extends_tree h h'.
Proof.
  unfold on_ready. intros h e h' H. apply rbind_ok in H as (x & _ & H).
  destruct (e_cls x);
    unfold on_ready_Scene, on_ready_Rectangle, on_ready_Circle, on_ready_Arc,
      on_ready_Line, on_ready_Image, on_ready_Text in H;
    ext_inv_hooks;
    repeat match goal with
           | H : on_ready_Ellipse _ _ = Ok _ |- _ => apply on_ready_Ellipse_ext in H
           end;
    ext_close.
Qed.

(** [Element.add] changes only the parent's children (appending the child)
    and the child's parent. *)
Lemma element_add_shape : forall h p c h',
  element_add h p c = Ok h' ->
  exists px cx, nth_error h p = Some px /\ nth_error h c = Some cx /\
    h' = replace_nth (replace_nth h p (mkElem (e_cls px) (e_parent px) (e_children px ++ [c]) (e_props px)))
                     c (mkElem (e_cls cx) (Some p) (e_children cx) (e_props cx)).
Proof.
  unfold element_add. intros h p c h' H.
  apply rbind_ok in H as (px & Hp & H). apply rbind_ok in H as (cx & Hc & H).
  apply elem_of_ok in Hp, Hc. injection H as <-. eauto.
Qed.

Lemma add_element_add : forall h p c h', add h p c = Ok h' -> element_add h p c = Ok h'.
Proof.
  unfold add. intros h p c h' H.
  apply rbind_ok in H as (px & _ & H). apply rbind_ok in H as (cx & _ & H).
  apply rbind_ok in H as (h1 & H1 & H).
  destruct (is_base_drawable _); [destruct (is_drawable _); [|destruct (is_animation _)]|];
    try discriminate; injection H as <-; exact H1.
Qed.

(** Attaching the new last element [c] of [h ++ [y]] to an element of [h]
    extends [h]. *)
Lemma element_add_new_ext : forall h y p h',
  element_add (h ++ [y]) p (length h) = Ok h' -> extends_tree h h'.
Proof.
  intros h y p h' H. apply element_add_shape in H as (px & cx & Hp & Hc & ->).
  split; [rewrite !replace_nth_length, length_app; lia|].
  intros e x Hx. assert (Hlt : e < length h) by (apply nth_error_Some; congruence).
  rewrite nth_error_replace_nth_other by lia.
  destruct (Nat.eq_dec p e) as [<-|Hne].
  - rewrite nth_error_app1 in Hp by exact Hlt. rewrite Hx in Hp. injection Hp as <-.
    exists (mkElem (e_cls x) (e_parent x) (e_children x ++ [length h]) (e_props x)), [length h].
    split; [eapply nth_error_replace_nth_same; rewrite nth_error_app1 by exact Hlt; exact Hx|].
    cbn. auto.
  - rewrite nth_error_replace_nth_other by exact Hne. exists x, [].
    rewrite nth_error_app1 by exact Hlt. rewrite app_nil_r. auto.
Qed.

Lemma for_each_ext : forall k ns st a st',
  (forall n s a s', k n s = Ok (a, s') -> extends_tree (heap_of s) (heap_of s')) ->
  for_each k ns st = Ok (a, st') -> extends_tree (heap_of st) (heap_of st').
Proof.
  intros k ns. induction ns as [|n ns IH]; intros st a st' Hk H; cbn [for_each] in H.
  - apply ret_ok in H as [_ <-]. apply ext_refl.
  - apply bind_ok in H as (b & s1 & H1 & H2).
    exact (ext_trans _ _ _ (Hk _ _ _ _ H1) (IH _ _ _ Hk H2)).
Qed.

Lemma run_extends : forall fuel c st r st',
  run fuel c st = Ok (r, st') -> extends_tree (heap_of st) (heap_of st').
Proof.
  induction fuel as [|f IH]; intros c st r st' H; [discriminate|].
  assert (Hrun : forall c s r s', run f c s = Ok (r, s') -> extends_tree (heap_of s) (heap_of s'))
    by exact IH.
  assert (Hcreate : forall element name ch tok s r s',
            _build_Create (run f) element name ch tok s = Ok (r, s') ->
            extends_tree (heap_of s) (heap_of s')).
  { intros element name ch tok s r0 s' Hc. unfold _build_Create in Hc.
    destruct (truthy name); [discriminate|].
    inv_all.
    match goal with H8 : build_children (run f) ch _ = Ok _ |- _ =>
      apply for_each_ext in H8;
      [|intros n sA aA sB Hk; inv_all;
        match goal with Hb : run _ _ _ = Ok _ |- _ => apply Hrun in Hb end; ext_close] end.
    match goal with H6 : run f (CApply _ _ _) _ = Ok _ |- _ => apply Hrun in H6 end.
    match goal with H5 : _ (upd_heap _ _) = Ok _ |- _ => cbn [elements upd_heap heap_of] in H5 end.
    destruct (elements s) as [|parent rest0]; inv_all.
    - pose proof (ext_app (heap_of s) (mkElem a0 None [] [])). ext_close.
    - destruct (add _ parent _) as [h|[]] eqn:Ha; inv_all.
      apply add_element_add, element_add_new_ext in Ha. ext_close.
  }
  destruct c as [n|el name tok|fn].
  - destruct (is_expression n) eqn:Hexpr.
    { rewrite (expression_pure _ _ _ _ _ Hexpr H). apply ext_refl. }
    destruct n; try discriminate Hexpr; cbn [run build_node] in H.
    + (* Include *)
      unfold _build_Include in H. inv_all.
      destruct (_find_scene_file _ _) as [fn|[]]; try destruct (partition_nl _); inv_all.
      match goal with Hb : run _ _ _ = Ok _ |- _ => apply Hrun in Hb end. ext_close.
    + (* Template *)
      unfold _build_Template in H. inv_all.
      destruct (lookup_template _ _); inv_all. ext_close.
    + (* Scene *)
      unfold _build_Scene in H. inv_all.
      destruct (is_including st); cbn [negb] in H; [|exact (Hcreate _ _ _ _ _ _ _ H)].
      inv_all.
      match goal with H1 : for_each _ _ _ = Ok _ |- _ => apply for_each_ext in H1 end.
      2:{ intros n sA aA sB Hk. revert Hk. destruct n; cbv beta iota; intro Hk; inv_all.
          all: try (match goal with Hb : run _ _ _ = Ok _ |- _ => apply Hrun in Hb end;
               match goal with H3 : (match ?w with _ => _ end) _ = Ok _ |- _ => destruct w end;
               inv_all).
          all: ext_close. }
      ext_close.
    + (* Create *)
      exact (Hcreate _ _ _ _ _ _ _ H).
    + (* Define *)
      unfold _build_Define in H. inv_all.
      match goal with Hb : run _ _ _ = Ok _ |- _ => apply Hrun in Hb end.
      destruct (define _ _ _ _ _ _ _ _) as [h|[]] eqn:Hd; inv_all.
      apply define_ext in Hd. ext_close.
    + (* Assign *)
      unfold _build_Assign in H. inv_all.
      destruct (get _ _ _) as [?|[]]; inv_all.
      destruct (lookup_prop _ _ _) as [p|]; inv_all.
      destruct (p_types p) as [|t ts]; inv_all.
      match goal with Hb : run _ _ _ = Ok _ |- _ => apply Hrun in Hb end.
      destruct (set _ _ _ _) as [h|[]] eqn:Hs; inv_all.
      apply set_ext in Hs. ext_close.
    + (* MemberAccess *)
      unfold _build_MemberAccess in H. inv_all.
      match goal with Hb : run _ _ _ = Ok _ |- _ => apply Hrun in Hb end.
      match goal with H3 : (match ?w with _ => _ end) _ = Ok _ |- _ => destruct w end;
        inv_all; ext_close.
    + (* UnaryOp *)
      inv_all.
      match goal with Hb : run _ _ _ = Ok _ |- _ => apply Hrun in Hb end. ext_close.
    + (* BinOp *)
      inv_all.
      repeat match goal with Hb : run _ _ _ = Ok _ |- _ => apply Hrun in Hb end. ext_close.
    + (* Call *)
      unfold _build_Call in H. bind_inv.
      assert (Hargs : forall l s0 vs s1,
                (fix build_args (l : list node) : M (list value) :=
                   match l with
                   | [] => ret []
                   | a :: l' => r <- build_ (run f) a ;; v <- expect_value r ;;
                                vs <- build_args l' ;; ret (v :: vs)
                   end) l s0 = Ok (vs, s1) -> extends_tree (heap_of s0) (heap_of s1)).
      { induction l as [|x l IHl]; intros s0 vs s1 Hb; [bind_inv; apply ext_refl|].
        inv_all.
        match goal with Hb : run _ _ _ = Ok _ |- _ => apply Hrun in Hb end.
        match goal with Hb : _ = Ok _ |- _ => apply IHl in Hb end.
        ext_close. }
      match goal with H1 : _ st = Ok (_, ?s) |- _ => apply Hargs in H1 end.
      destruct (function_defined name); bind_inv; ext_close.
  - (* CApply *)
    cbn [run] in H. unfold _apply_template in H. inv_all.
    destruct (lookup_template name (templates st)) as [[c|t]|]; inv_all.
    + match goal with Hb : on_ready _ _ = Ok _ |- _ => apply on_ready_ext in Hb end. ext_close.
    + match goal with Hb : run _ _ _ = Ok _ |- _ => apply Hrun in Hb end.
      match goal with H1 : for_each _ _ _ = Ok _ |- _ => apply for_each_ext in H1 end.
      2:{ intros n sA aA sB Hk. inv_all.
          match goal with Hb : run _ _ _ = Ok _ |- _ => apply Hrun in Hb end. ext_close. }
      ext_close.
  - (* CInclude *)
    cbn [run] in H. unfold _include in H. inv_all.
    destruct (mem_string _ (including st)); inv_all; [apply ext_refl|].
    destruct (mem_string _ (included st)); inv_all; [apply ext_refl|].
    destruct (read_scene _); inv_all.
    match goal with Hb : run _ _ _ = Ok _ |- _ => apply Hrun in Hb end. ext_close.
Qed.

Lemma ext_nth : forall h h' e x, extends_tree h h' -> nth_error h e = Some x ->
  exists y l, nth_error h' e = Some y /\ e_cls y = e_cls x /\ e_parent y = e_parent x /\
              e_children y = e_children x ++ l.
Proof. intros h h' e x [_ H] Hx. exact (H e x Hx). Qed.

Lemma create_new_element : forall fuel element ch tok st r st',
  (forall p, hd_error (elements st) = Some p -> p < length (heap_of st)) ->
  run (S fuel) (CBuild (NCreate element None ch tok)) st = Ok (r, st') ->
  r = PElement (length (heap_of st)) /\
  exists x, nth_error (heap_of st') (length (heap_of st)) = Some x /\
    get_element_type (templates st) element tok = Ok (e_cls x) /\
    e_parent x = hd_error (elements st) /\
    (forall p y, hd_error (elements st) = Some p -> nth_error (heap_of st') p = Some y ->
                 In (length (heap_of st)) (e_children y)).
Proof.
  intros fuel element ch tok st r st' Hp H.
  cbn [run build_node] in H. unfold _build_Create in H. cbn [truthy] in H.
  inv_all.
  match goal with H8 : build_children (run fuel) ch _ = Ok _ |- _ =>
    apply for_each_ext in H8;
    [|intros n sA aA sB Hk; inv_all;
      match goal with Hb : run _ _ _ = Ok _ |- _ => apply run_extends in Hb end; ext_close] end.
  match goal with H6 : run fuel (CApply _ _ _) _ = Ok _ |- _ => apply run_extends in H6 end.
  match goal with H5 : _ (upd_heap _ _) = Ok _ |- _ => cbn [elements upd_heap heap_of] in H5 end.
  split; [reflexivity|].
  set (nw := mkElem a0 None [] []) in *.
  destruct (elements st) as [|parent rest0] eqn:Es; inv_all; cbn [hd_error] in *.
  - match goal with |- context [nth_error ?HF (length (heap_of st))] =>
      assert (Hfin : extends_tree (heap_of st ++ [nw]) HF) by ext_close end.
    destruct (ext_nth _ _ _ _ Hfin (nth_error_app_new (heap_of st) nw)) as (y & l & Hy & C & P & _).
    exists y. repeat split; [exact Hy | rewrite C; exact H | exact P | discriminate].
  - specialize (Hp parent eq_refl).
    destruct (add _ parent _) as [h|[]] eqn:Ha; inv_all.
    match goal with |- context [nth_error ?HF (length (heap_of st))] =>
      assert (Hfin : extends_tree h HF) by ext_close end.
    apply add_element_add, element_add_shape in Ha as (px & cx & Hpx & Hcx & ->).
    rewrite nth_error_app_new in Hcx. injection Hcx as <-.
    assert (Hne : parent <> (length (heap_of st))) by lia.
    assert (Hnew : nth_error (replace_nth (heap_of st ++ [nw]) parent
               (mkElem (e_cls px) (e_parent px) (e_children px ++ [length (heap_of st)]) (e_props px)))
               (length (heap_of st)) = Some nw)
      by (rewrite nth_error_replace_nth_other by lia; apply nth_error_app_new).
    destruct (ext_nth _ _ _ _ Hfin (nth_error_replace_nth_same _ _ _ _ Hnew))
      as (y & l & Hy & C & P & _).
    exists y. split; [exact Hy|]. split; [rewrite C; exact H|]. split; [exact P|].
    intros p y' Hpp Hy'. injection Hpp as <-.
    assert (Hpar : nth_error (replace_nth (replace_nth (heap_of st ++ [nw]) parent
               (mkElem (e_cls px) (e_parent px) (e_children px ++ [(length (heap_of st))]) (e_props px))) (length (heap_of st))
               (mkElem (e_cls nw) (Some parent) (e_children nw) (e_props nw))) parent =
             Some (mkElem (e_cls px) (e_parent px) (e_children px ++ [(length (heap_of st))]) (e_props px))).
    { rewrite nth_error_replace_nth_other by lia. eapply nth_error_replace_nth_same. exact Hpx. }
    destruct (ext_nth _ _ _ _ Hfin Hpar) as (z & l' & Hz & _ & _ & K).
    rewrite Hy' in Hz. injection Hz as <-. rewrite K. cbn [e_children].
    apply in_or_app. left. apply in_or_app. right. left. reflexivity.
Qed.

(** Extra X8: a successful [Create] directive (without a name) returns a new
    element, appended at the end of the tree, whose class is the one its
    element or template name resolves to; its parent is the active element,
    if any, and that parent lists it among its children. *)
Theorem create_attaches_new_element : forall fuel element ch tok st r st',
  (forall p, hd_error (elements st) = Some p -> p < length (heap_of st)) ->
  run (S fuel) (CBuild (NCreate element None ch tok)) st = Ok (r, st') ->
  r = PElement (length (heap_of st)) /\
  exists x, nth_error (heap_of st') (length (heap_of st)) = Some x /\
    get_element_type (templates st) element tok = Ok (e_cls x) /\
    e_parent x = hd_error (elements st) /\
    (forall p y, hd_error (elements st) = Some p -> nth_error (heap_of st') p = Some y ->
                 In (length (heap_of st)) (e_children y)).
Proof.
  intros fuel element ch tok st r st' Hp H. exact (create_new_element _ _ _ _ _ _ _ Hp H).
Qed.

(** ** The [on_ready] defaults of the drawables *)

Lemma list_index_first : forall x l i,
  nth_error l i = Some x -> (forall j, j < i -> nth_error l j <> Some x) ->
  list_index x l = Ok i.
Proof.
  intros x l. induction l as [|y l IH]; intros i Hi Hj; [destruct i; discriminate|].
  cbn [list_index]. destruct i as [|i]; cbn [nth_error] in Hi.
  - injection Hi as ->. rewrite Nat.eqb_refl. reflexivity.
  - destruct (Nat.eqb_spec x y) as [->|Hne].
    + exfalso. apply (Hj 0); [lia|reflexivity].
    + rewrite (IH i Hi). reflexivity.
      intros j Hlt. apply (Hj (S j)). lia.
Qed.

(** Extra X15: [Drawable.on_ready] on a fresh drawable (no properties yet)
    that is child number [i] of its parent, [i] being its first position in
    the parent's children, declares [index = i] (readonly and constant),
    [x = 0] and [width = 100%] relative to the parent's width, and [y = 0]
    and [height = 100%] relative to the parent's height, in that order. *)
Theorem drawable_on_ready_defaults : forall h e c par ch px i,
  nth_error h e = Some (mkElem c (Some par) ch []) ->
  nth_error h par = Some px ->
  nth_error (e_children px) i = Some e ->
  (forall j, j < i -> nth_error (e_children px) j <> Some e) ->
  on_ready_Drawable h e = Ok (replace_nth h e (mkElem c (Some par) ch (drawable_props i))).
Proof.
  intros h e c par ch px i He Hpar Hi Hj.
  unfold on_ready_Drawable, define, elem_of, with_props.
  rewrite He. cbn [rbind e_parent]. rewrite Hpar. cbn [rbind].
  rewrite (list_index_first _ _ _ Hi Hj). cbn [rbind].
  remember (rbind _ _) as r eqn:Hr.
  heap_steps Hr. subst r. reflexivity.
Qed.

(** [heap_steps] for a goal whose [Element.set] calls are known to pass
    the type check. *)
Ltac heap_steps_ok H :=
  repeat progress (
    unfold prop_ref_eqb, lookup_prop, elem_of in H; cbn in H;
    repeat match type of H with
    | context [nth_error (replace_nth ?h ?c ?y) ?c] =>
        erewrite (nth_error_replace_nth_same h c y) in H by eassumption
    | context [nth_error (replace_nth ?h ?c ?y) ?d] =>
        rewrite (nth_error_replace_nth_other h c d y) in H by congruence
    | context [replace_nth (replace_nth ?h ?c ?x) ?c ?y] =>
        rewrite (replace_nth_twice h c x y) in H
    | context [total_props (replace_nth ?h ?c ?y)] =>
        erewrite (total_props_replace h c _ y) in H by eassumption
    | context [Nat.eqb ?c ?c] => rewrite Nat.eqb_refl in H
    | context [Nat.eqb ?a ?b] =>
        let E := fresh "E" in
        assert (E : Nat.eqb a b = false) by (apply Nat.eqb_neq; congruence);
        rewrite E in H; clear E
    | context [type_ok ?a ?b] =>
        let E := fresh "E" in
        assert (E : type_ok a b = true) by assumption; rewrite E in H; clear E
    end).

Ltac ready_setup He Hpar Hi Hj :=
  unfold on_ready, elem_of at 1; rewrite He; cbn [rbind e_cls];
  unfold on_ready_Rectangle, on_ready_Line, on_ready_Image, on_ready_Text, on_ready_Arc,
    on_ready_Ellipse, on_ready_Drawable, define_color_fill, define_outline,
    define, set, get, lookup_prop, elem_of, store, cycle_from, with_props;
  rewrite He; cbn [rbind e_parent]; rewrite Hpar; cbn [rbind];
  rewrite (list_index_first _ _ _ Hi Hj); cbn [rbind].

(** Extra X17: [Rectangle.on_ready] on a fresh rectangle succeeds and adds to
    the [Drawable] defaults a white [color], a [fill] that refers to
    [color], a transparent [outline] typed [Vec4] and [outline_width = 1]. *)
Theorem rectangle_on_ready_defaults : forall h e par ch px i,
  nth_error h e = Some (mkElem Rectangle (Some par) ch []) ->
  nth_error h par = Some px ->
  nth_error (e_children px) i = Some e ->
  (forall j, j < i -> nth_error (e_children px) j <> Some e) ->
  on_ready h e = Ok (replace_nth h e (mkElem Rectangle (Some par) ch
                       (drawable_props i ++ color_fill_props e ++ outline_props))).
Proof.
  intros h e par ch px i He Hpar Hi Hj. ready_setup He Hpar Hi Hj.
  remember (rbind _ _) as r eqn:Hr. heap_steps_ok Hr. subst r. reflexivity.
Qed.

(** Extra X18: [Image.on_ready] on a fresh image succeeds and adds to the
    [Drawable] defaults a constant [filename = ""]. *)
Theorem image_on_ready_defaults : forall h e par ch px i,
  nth_error h e = Some (mkElem Image (Some par) ch []) ->
  nth_error h par = Some px ->
  nth_error (e_children px) i = Some e ->
  (forall j, j < i -> nth_error (e_children px) j <> Some e) ->
  on_ready h e = Ok (replace_nth h e (mkElem Image (Some par) ch
                       (drawable_props i ++
                        [mkProp "filename" (VString "") [TString] false true None]))).
Proof.
  intros h e par ch px i He Hpar Hi Hj. ready_setup He Hpar Hi Hj.
  remember (rbind _ _) as r eqn:Hr. heap_steps_ok Hr. subst r. reflexivity.
Qed.

(** Extra X19: [Text.on_ready] on a fresh text element, when [Element.set]
    accepts [50%] for a number property, sets [x] and [y] to [50%] and adds
    the constant [text = ""], [font = "arial"], [anchor = TextAnchor.Center]
    (flag value 18) and [alignment = TextAlignment.Left] (value 1), the
    writable [font_size = 32], a white [color] and a [fill] that refers to
    [color]. *)
Theorem text_on_ready_defaults : forall h e par ch px i,
  nth_error h e = Some (mkElem Text (Some par) ch []) ->
  nth_error h par = Some px ->
  nth_error (e_children px) i = Some e ->
  (forall j, j < i -> nth_error (e_children px) j <> Some e) ->
  type_ok [TNumber] (pct 50) = true ->
  on_ready h e = Ok (replace_nth h e (mkElem Text (Some par) ch
    ([mkProp "index" (num (Z.of_nat i)) [TNumber] true true None;
     mkProp "x" (pct 50) [TNumber] false false (Some "width"%string);
     mkProp "y" (pct 50) [TNumber] false false (Some "height"%string);
     mkProp "width" (pct 100) [TPercentage] false false (Some "width"%string);
     mkProp "height" (pct 100) [TPercentage] false false (Some "height"%string);
     mkProp "text" (VString "") [TString] false true None;
     mkProp "font" (VString "arial") [TString] false true None;
     mkProp "font_size" (num 32) [TNumber] false false None;
     mkProp "anchor" (VFlag "TextAnchor" 18) [TFlagType "TextAnchor"] false true None;
     mkProp "alignment" (VEnum "TextAlignment" 1) [TEnumType "TextAlignment"] false true None]
     ++ color_fill_props e))).
Proof.
  intros h e par ch px i He Hpar Hi Hj Ht. ready_setup He Hpar Hi Hj.
  remember (rbind _ _) as r eqn:Hr. heap_steps_ok Hr. subst r. reflexivity.
Qed.

(** Extra X20: [Line.on_ready] on a fresh line, when [Element.set] accepts the
    values below, adds the endpoints [x1], [y1], [x2], [y2] (all 0, relative
    to the parent's width or height), makes [x] and [y] refer to [x1] and
    [y1], sets [width] to 1, and adds a white [color] and a [fill] that
    refers to [color]. *)
Theorem line_on_ready_defaults : forall h e par ch px i,
  nth_error h e = Some (mkElem Line (Some par) ch []) ->
  nth_error h par = Some px ->
  nth_error (e_children px) i = Some e ->
  (forall j, j < i -> nth_error (e_children px) j <> Some e) ->
  type_ok [TNumber] (VProperty e "x1") = true ->
  type_ok [TNumber] (VProperty e "y1") = true ->
  type_ok [TPercentage] (num 1) = true ->
  on_ready h e = Ok (replace_nth h e (mkElem Line (Some par) ch
    ([mkProp "index" (num (Z.of_nat i)) [TNumber] true true None;
      mkProp "x" (VProperty e "x1") [TNumber] false false (Some "width"%string);
      mkProp "y" (VProperty e "y1") [TNumber] false false (Some "height"%string);
      mkProp "width" (num 1) [TPercentage] false false (Some "width"%string);
      mkProp "height" (pct 100) [TPercentage] false false (Some "height"%string);
      mkProp "x1" (num 0) [TNumber] false false (Some "width"%string);
      mkProp "y1" (num 0) [TNumber] false false (Some "height"%string);
      mkProp "x2" (num 0) [TNumber] false false (Some "width"%string);
      mkProp "y2" (num 0) [TNumber] false false (Some "height"%string)]
     ++ color_fill_props e))).
Proof.
  intros h e par ch px i He Hpar Hi Hj Hx Hy Hw. ready_setup He Hpar Hi Hj.
  remember (rbind _ _) as r eqn:Hr. heap_steps_ok Hr. subst r. reflexivity.
Qed.

(** Extra X21: a successful [Arc.on_ready] on a fresh arc leaves it with the
    [Ellipse] geometry ([center_x = 50% - width / 2] and [center_y = 50% -
    height / 2], [diameter = 100%],
    [diameter_x] and [diameter_y] referring to [diameter], radii half the
    diameters, and [x], [y], [width], [height] recomputed from the centre
    and the radii), a white [color] with its [fill], a transparent outline
    of width 1, and [start_angle = 0deg], [end_angle = 360deg]. *)
Theorem arc_on_ready_defaults : forall h e par ch px i h1,
  nth_error h e = Some (mkElem Arc (Some par) ch []) ->
  nth_error h par = Some px ->
  nth_error (e_children px) i = Some e ->
  (forall j, j < i -> nth_error (e_children px) j <> Some e) ->
  on_ready h e = Ok h1 ->
  h1 = replace_nth h e (mkElem Arc (Some par) ch
    ([mkProp "index" (num (Z.of_nat i)) [TNumber] true true None;
      mkProp "x" (VBinOp "-" (VProperty e "center_x") (VBinOp "/" (VProperty e "width") (num 2)))
             [TNumber] false false (Some "width"%string);
      mkProp "y" (VBinOp "-" (VProperty e "center_y") (VBinOp "/" (VProperty e "height") (num 2)))
             [TNumber] false false (Some "height"%string);
      mkProp "width" (VBinOp "*" (VProperty e "radius_x") (num 2))
             [TPercentage] false false (Some "width"%string);
      mkProp "height" (VBinOp "*" (VProperty e "radius_y") (num 2))
             [TPercentage] false false (Some "height"%string);
      mkProp "center_x" (VBinOp "-" (pct 50) (VBinOp "/" (VProperty e "width") (num 2)))
             [TExpression] false false (Some "width"%string);
      mkProp "center_y" (VBinOp "-" (pct 50) (VBinOp "/" (VProperty e "height") (num 2)))
             [TExpression] false false (Some "height"%string);
      mkProp "diameter" (pct 100) [TPercentage] false false (Some "width"%string);
      mkProp "radius" (VBinOp "/" (VProperty e "diameter") (num 2))
             [TExpression] false false (Some "width"%string);
      mkProp "diameter_x" (VProperty e "diameter") [TExpression] false false (Some "width"%string);
      mkProp "diameter_y" (VProperty e "diameter") [TExpression] false false (Some "height"%string);
      mkProp "radius_x" (VBinOp "/" (VProperty e "diameter_x") (num 2))
             [TExpression] false false (Some "width"%string);
      mkProp "radius_y" (VBinOp "/" (VProperty e "diameter_y") (num 2))
             [TExpression] false false (Some "height"%string)]
     ++ color_fill_props e ++ outline_props ++
     [mkProp "start_angle" (VAngle 0 Degrees) [TAngle] false false None;
      mkProp "end_angle" (VAngle 360 Degrees) [TAngle] false false None])).
Proof.
  intros h e par ch px i h1 He Hpar Hi Hj H. revert H. ready_setup He Hpar Hi Hj. intro H.
  heap_steps H. injection H as <-. reflexivity.
Qed.

(** Extra X9: no successful builder request removes or moves an element of
    the scene tree: every element that existed before is still there, with
    the same class and parent, and its children list has only been appended
    to. *)
Theorem builder_tree_only_grows : forall fuel c st r st',
  run fuel c st = Ok (r, st') ->
  forall e x, nth_error (heap_of st) e = Some x ->
  exists y l, nth_error (heap_of st') e = Some y /\ e_cls y = e_cls x /\
              e_parent y = e_parent x /\ e_children y = e_children x ++ l.
Proof.
  intros fuel c st r st' H e x Hx. exact (ext_nth _ _ _ _ (run_extends _ _ _ _ _ H) Hx).
Qed.

(** ** Names *)

Lemma get_property_first : forall h e l name tok,
  ancestor_chain h e l ->
  _get_property h e name tok =
  match first_prop h name l with
  | Some v => Ok v
  | None => Err (create_error ("Undefined property " ++ repr name) "" tok)
  end.
Proof.
  intros h e l name tok Hc. unfold _get_property.
  assert (He : e < length h) by (eapply chain_in_heap; eauto; inversion Hc; left; reflexivity).
  destruct (nth_error h e) eqn:E; [|apply nth_error_None in E; lia].
  rewrite walk_chain with (l := l) by (auto; pose proof (chain_length h e l Hc); lia).
  reflexivity.
Qed.

(** Extra X12: a name is first looked up among the members of the active type
    when it is an enum or flag type, and such a member wins over any
    property of that name; otherwise the name refers to the property of the
    nearest element, from the active element up to the root, that has it,
    and fails with "Undefined property <name>" when none has. The builder
    state is unchanged. *)
Theorem name_resolution : forall fuel name tok st,
  (forall en rest m, types st = TEnumType en :: rest ->
     find (fun m => String.eqb (fst m) name) (enum_members en) = Some m ->
     run (S fuel) (CBuild (NName name tok)) st = Ok (PValue (VEnum en (snd m)), st)) /\
  (forall fl rest m, types st = TFlagType fl :: rest ->
     find (fun m => String.eqb (fst m) name) (enum_members fl) = Some m ->
     run (S fuel) (CBuild (NName name tok)) st = Ok (PValue (VFlag fl (snd m)), st)) /\
  (forall e rest l,
     match types st with
     | TEnumType en :: _ | TFlagType en :: _ =>
         find (fun m => String.eqb (fst m) name) (enum_members en) = None
     | _ => True
     end ->
     elements st = e :: rest -> ancestor_chain (heap_of st) e l ->
     run (S fuel) (CBuild (NName name tok)) st =
     match first_prop (heap_of st) name l with
     | Some v => Ok (PValue v, st)
     | None => Err (create_error ("Undefined property " ++ repr name) "" tok)
     end).
Proof.
  intros fuel name tok st. split; [|split].
  - intros en rest m Ht Hm. cbn [run build_node]. unfold _build_Name, bind at 1, get_state.
    cbv beta iota zeta. rewrite Ht. cbv beta iota. rewrite Hm. reflexivity.
  - intros fl rest m Ht Hm. cbn [run build_node]. unfold _build_Name, bind at 1, get_state.
    cbv beta iota zeta. rewrite Ht. cbv beta iota. rewrite Hm. reflexivity.
  - intros e rest l Hnone He Hc. cbn [run build_node]. unfold _build_Name, bind at 1, get_state.
    cbv beta iota zeta.
    assert (Hmem : match types st with
                   | TEnumType en :: _ =>
                       option_map (fun m => VEnum en (snd m))
                         (find (fun m => String.eqb (fst m) name) (enum_members en))
                   | TFlagType fl :: _ =>
                       option_map (fun m => VFlag fl (snd m))
                         (find (fun m => String.eqb (fst m) name) (enum_members fl))
                   | _ => None
                   end = None).
    { destruct (types st) as [|[] ?]; try reflexivity; rewrite Hnone; reflexivity. }
    rewrite Hmem. unfold cur_element, bind, lift. rewrite He.
    rewrite (get_property_first _ _ _ _ tok Hc).
    destruct (first_prop (heap_of st) name l); reflexivity.
Qed.

Lemma find_prop_app_new : forall name ps p,
  find_prop name ps = None -> p_name p = name -> find_prop name (ps ++ [p]) = Some p.
Proof.
  intros name ps p Hn Hp. induction ps as [|q ps IH]; cbn in *.
  - rewrite Hp, String.eqb_refl. reflexivity.
  - destruct (String.eqb (p_name q) name); [discriminate|]. exact (IH Hn).
Qed.

Lemma name_own_property : forall fuel name tok st e rest p,
  match types st with
  | TEnumType en :: _ | TFlagType en :: _ =>
      find (fun m => String.eqb (fst m) name) (enum_members en) = None
  | _ => True
  end ->
  elements st = e :: rest -> lookup_prop (heap_of st) e name = Some p ->
  run (S fuel) (CBuild (NName name tok)) st = Ok (PValue (VProperty e name), st).
Proof.
  intros fuel name tok st e rest p Hnone He Hp.
  cbn [run build_node]. unfold _build_Name, bind at 1, get_state.
  cbv beta iota zeta.
  assert (Hmem : match types st with
                 | TEnumType en :: _ =>
                     option_map (fun m => VEnum en (snd m))
                       (find (fun m => String.eqb (fst m) name) (enum_members en))
                 | TFlagType fl :: _ =>
                     option_map (fun m => VFlag fl (snd m))
                       (find (fun m => String.eqb (fst m) name) (enum_members fl))
                 | _ => None
                 end = None).
  { destruct (types st) as [|[] ?]; try reflexivity; rewrite Hnone; reflexivity. }
  rewrite Hmem. unfold cur_element, bind, lift. rewrite He.
  unfold _get_property. unfold lookup_prop in Hp.
  destruct (nth_error (heap_of st) e) eqn:Hx; [|discriminate].
  cbn [get_property_walk]. unfold get, lookup_prop. rewrite Hx, Hp. reflexivity.
Qed.

(** Extra X22: after a successful [Define] directive, building the defined
    name (when the active type has no enum or flag member of that name)
    gives the new property of the active element, and leaves the state as
    it is. *)
Theorem define_then_name : forall fuel fuel' name vnode tok tok' st r st',
  run (S fuel) (CBuild (NDefine name vnode tok)) st = Ok (r, st') ->
  match types st with
  | TEnumType en :: _ | TFlagType en :: _ =>
      find (fun m => String.eqb (fst m) name) (enum_members en) = None
  | _ => True
  end ->
  r = PNone /\
  exists e rest, elements st' = e :: rest /\
    run (S fuel') (CBuild (NName name tok')) st' = Ok (PValue (VProperty e name), st').
Proof.
  intros fuel fuel' name vnode tok tok' st r st' H Hnone.
  pose proof (run_keeps_stacks _ _ _ _ _ H) as (_ & Hty & _).
  cbn [run build_node] in H. unfold _build_Define, build_ in H.
  apply bind_ok in H as (r0 & s1 & _ & H).
  apply bind_ok in H as (v & s2 & Hev & H). apply expect_value_ok in Hev as [-> ->].
  apply bind_ok in H as (e & s3 & Hce & H). unfold cur_element in Hce.
  destruct (elements s1) as [|e0 rest] eqn:Hel; [discriminate|]. injection Hce as <- <-.
  apply bind_ok in H as (s4 & s5 & Hg & H). apply get_state_ok in Hg as [-> ->].
  destruct (define (heap_of s1) e0 name v None false false None) as [h|err] eqn:Hd.
  2: { exfalso. destruct err; try (unfold fail in H; discriminate H).
       apply bind_ok in H as (? & ? & _ & H). unfold fail in H. discriminate H. }
  apply bind_ok in H as (u & s6 & Hm & H). apply modify_ok in Hm. subst s6.
  apply ret_ok in H as [-> ->].
  split; [reflexivity|]. exists e0, rest. split; [exact Hel|].
  unfold define, elem_of in Hd.
  destruct (nth_error (heap_of s1) e0) as [x|] eqn:Hx; [|discriminate]. cbn [rbind] in Hd.
  destruct (find_prop name (e_props x)) eqn:Hf; [discriminate|]. injection Hd as <-.
  eapply (name_own_property _ _ _ _ _ rest).
  - cbn [types upd_heap] in Hty |- *. rewrite Hty. exact Hnone.
  - exact Hel.
  - unfold lookup_prop. cbn [heap_of upd_heap].
    rewrite (nth_error_replace_nth_same _ _ _ _ Hx). cbn [e_props with_props].
    apply find_prop_app_new; [exact Hf | reflexivity].
Qed.

(** ** [SceneBuilder.build] *)

Lemma class_of_inv : forall e s c s', class_of e s = Ok (c, s') ->
  s' = s /\ exists x, nth_error (heap_of s) e = Some x /\ e_cls x = c.
Proof.
  unfold class_of, elem_of. intros e s c s' H.
  destruct (nth_error (heap_of s) e) as [x|]; [|discriminate].
  injection H as <- <-. eauto.
Qed.

Lemma create_name_falsy : forall fuel element name ch tok st,
  truthy name = false ->
  run (S fuel) (CBuild (NCreate element name ch tok)) st =
  run (S fuel) (CBuild (NCreate element None ch tok)) st.
Proof.
  intros fuel element name ch tok st Hn. cbn [run build_node]. unfold _build_Create.
  rewrite Hn. reflexivity.
Qed.

(** Extra X10: a successful [build] returns a new [Scene] element appended to
    the tree, the root of it (no parent), and leaves no active element and
    no active type behind; only a root that passes [build]'s assertions (a
    [Scene] node, or a [Create] node of element "Scene") can succeed. *)
Theorem build_returns_root_scene : forall fuel root st r st',
  build fuel root st = Ok (r, st') ->
  build_root root = true /\ r = PElement (length (heap_of st)) /\
  exists x, nth_error (heap_of st') (length (heap_of st)) = Some x /\
    e_cls x = Scene /\ e_parent x = None /\ elements st' = [] /\ types st' = [].
Proof.
  intros fuel root st r st' H. unfold build in H.
  destruct (build_root root) eqn:Hroot; [|discriminate H]. split; [reflexivity|].
  apply bind_ok in H as (u & s1 & H1 & H). apply modify_ok in H1. subst s1.
  apply bind_ok in H as (a & s2 & Hr & H).
  destruct a as [|e|v]; try discriminate H.
  apply bind_ok in H as (c & s3 & Hc & H). apply class_of_inv in Hc as (-> & x & Hx & <-).
  destruct (e_cls x) eqn:Ec; try discriminate H.
  apply bind_ok in H as (u' & s4 & H4 & H). apply modify_ok in H4. subst s4.
  apply ret_ok in H as [-> ->].
  destruct fuel as [|f]; [discriminate|].
  set (s0 := upd_types [] (upd_elements [] (upd_templates
               (map (fun c => (cls_name c, TType c)) element_types) st))) in Hr.
  assert (Hcr : exists element ch tok,
             run (S f) (CBuild (NCreate element None ch tok)) s0 = Ok (PElement e, s2)).
  { destruct root as [| | ch tok | element name ch tok | | | | | | | | |]; try discriminate Hroot.
    - cbn [run build_node] in Hr. unfold _build_Scene in Hr.
      apply bind_ok in Hr as (s5 & s6 & Hg & Hr). apply get_state_ok in Hg as [-> ->].
      destruct (is_including _) eqn:Hinc; cbn [negb] in Hr.
      + exfalso. apply bind_ok in Hr as (u2 & s5 & _ & Hr). apply ret_ok in Hr as [Hr _].
        discriminate.
      + exists "Scene"%string, ch, tok. exact Hr.
    - exists element, ch, tok.
      destruct (truthy name) eqn:Hn.
      + cbn [run build_node] in Hr. unfold _build_Create in Hr. rewrite Hn in Hr. discriminate Hr.
      + rewrite <- (create_name_falsy f element name ch tok s0 Hn). exact Hr. }
  destruct Hcr as (element & ch & tok & Hcr).
  apply create_new_element in Hcr as [He (y & Hy & _ & Hp & _)]; [|cbn; discriminate].
  injection He as ->. subst s0. cbn [heap_of upd_types upd_elements upd_templates] in *.
  rewrite Hx in Hy. injection Hy as <-.
  split; [reflexivity|]. exists x. cbn. repeat split; auto.
Qed.

(** Extra X14: building an expression node (a number, a string, a name, a
    member access, a unary or binary operation, a call with expression
    arguments) never changes the builder state. *)
Theorem expression_build_pure : forall fuel n st r st',
  is_expression n = true -> run fuel (CBuild n) st = Ok (r, st') -> st' = st.
Proof. intros fuel n st r st' Hn H. exact (expression_pure _ _ _ _ _ Hn H). Qed.

End Model.

(** * A concrete instance

    The builder with every type check passing, no functions, a single file
    [lib/shapes.anim] on disk, paths used as given, and a 300 by 200 canvas. *)

Open Scope string_scope.
Open Scope list_scope.

Definition ok_types (ts : list ty) (v : value) : bool := true.
Definition no_function (name : string) : bool := false.
Definition call_none (name : string) (args : list value) : result value := Err (KeyError name).
Definition lib_file (f : string) : bool := String.eqb f "lib/shapes.anim".
Definition no_scene (f : string) : option (list node) := None.
Definition keep_path (f : string) : string := f.
Definition slash_join (a b : string) : string := a ++ "/" ++ b.
Definition tok1 : option token := Some (mkToken 1 2 3 4).
Definition RUN (fuel : nat) (c : call) (st : state) : result (pyval * state) :=
  run ok_types no_function call_none lib_file no_scene keep_path keep_path slash_join
      300 200 fuel c st.
Definition BUILD (fuel : nat) (n : node) (st : state) : result (pyval * state) :=
  build ok_types no_function call_none lib_file no_scene keep_path keep_path slash_join
      300 200 fuel n st.
Definition registry : list (string * tentry) := map (fun c => (cls_name c, TType c)) element_types.
Definition st0 : state := mkState [] [] [] ["scenes"; "lib"] [] [] [] [] [].
Definition final (r : result (pyval * state)) : state :=
  match r with Ok (_, s) => s | Err _ => st0 end.
Definition elem_at (h : heap) (e : nat) : elem :=
  match nth_error h e with Some x => x | None => mkElem Scene None [] [] end.
Definition prop_of (x : elem) (name : string) : prop :=
  match find_prop name (e_props x) with
  | Some p => p | None => mkProp name (VString "") [] false false None end.

(** ** Witnesses and counterexamples *)

(** C9 at a concrete input: a [Create] named [box]. *)
Lemma create_named_not_implemented_witness :
  RUN 1 (CBuild (NCreate "Rectangle" (Some "box") [] tok1)) st0 = Err NotImplementedError.
Proof.
  exact (create_named_not_implemented ok_types no_function call_none lib_file no_scene
           keep_path keep_path slash_join 300 200 0 "Rectangle" "box" [] tok1 st0
           ltac:(discriminate)).
Defined.

(** C4 at a concrete input: [shapes] resolves to a file already included. *)
Definition st_included : state :=
  mkState registry [] [] ["scenes"; "lib"] [] ["lib/shapes.anim"] [] [] [].
Lemma include_seen_is_noop_witness :
  RUN 5 (CBuild (NInclude ["shapes"] tok1)) st_included = Ok (PNone, st_included).
Proof.
  exact (proj1 (include_seen_is_noop ok_types no_function call_none lib_file no_scene
           keep_path keep_path slash_join 300 200 3 ["shapes"] tok1 "lib/shapes.anim"
           st_included ltac:(vm_compute; reflexivity) ltac:(right; vm_compute; reflexivity))).
Defined.

(** C6 at concrete inputs: the later directory [lib] is searched first and
    finds the file; with only [scenes] the include fails listing that path. *)
Lemma include_search_order_witness :
  _find_scene_file lib_file slash_join ["scenes"; "lib"] ["shapes"] = Ok "lib/shapes.anim" /\
  RUN 2 (CBuild (NInclude ["shapes"] tok1)) (upd_search_paths ["scenes"] st0) =
  Err (create_error "Failed including shapes" ("Tried..." ++ nl ++ "- scenes/shapes.anim") tok1).
Proof.
  split.
  - apply (proj2 (proj1 (include_search_order ok_types no_function call_none lib_file no_scene
             keep_path keep_path slash_join 300 200 ["shapes"] "shapes.anim" ["scenes"; "lib"]
             ltac:(vm_compute; reflexivity)) "lib/shapes.anim")).
    exists [], "lib", ["scenes"]. vm_compute. split; [reflexivity|]. split; [constructor|].
    split; reflexivity.
  - refine (eq_trans (proj1 (proj2 (proj2 (include_search_order ok_types no_function call_none
             lib_file no_scene keep_path keep_path slash_join 300 200 ["shapes"] "shapes.anim"
             ["scenes"] ltac:(vm_compute; reflexivity)))) 1 tok1 (upd_search_paths ["scenes"] st0)
             ltac:(vm_compute; reflexivity) ltac:(vm_compute; repeat constructor)
             ltac:(vm_compute; reflexivity)) _).
    vm_compute. reflexivity.
Defined.

(** C3 at a concrete heap: [w] is found on the parent of element 1. *)
Definition heap_w : heap :=
  [mkElem Scene None [1] [mkProp "w" (num 1) [TNumber] false false None];
   mkElem Rectangle (Some 0) [] []].
Lemma get_property_nearest_ancestor_witness :
  _get_property heap_w 1 "w" None = Ok (VProperty 0 "w").
Proof.
  apply (proj2 (proj1 (get_property_nearest_ancestor heap_w 1 [1; 0] "w" None
           (chain_parent heap_w 1 _ 0 [0] eq_refl eq_refl
              (chain_root heap_w 0 _ eq_refl eq_refl))) (VProperty 0 "w"))).
  exists [1], 0, []. split; [reflexivity|]. split; [repeat constructor|].
  split; [discriminate|reflexivity].
Defined.

(** C7 at a concrete state: a [Scene] created inside a [Rectangle]. *)
Definition st_rect : state :=
  upd_elements [1] (final (BUILD 50 (NScene [NCreate "Rectangle" None [] None] None) st0)).
Lemma create_rejected_by_container_witness :
  RUN 4 (CBuild (NCreate "Scene" None [] tok1)) st_rect =
  Err (create_error "Cannot add Scene to Rectangle" "" tok1).
Proof.
  refine (eq_trans (create_rejected_by_container ok_types no_function call_none lib_file no_scene
           keep_path keep_path slash_join 300 200 3 "Scene" [] tok1 st_rect 1 []
           (elem_at (heap_of st_rect) 1) Scene
           ltac:(vm_compute; reflexivity) ltac:(vm_compute; reflexivity)
           ltac:(vm_compute; reflexivity) ltac:(vm_compute; reflexivity)
           ltac:(vm_compute; reflexivity) ltac:(vm_compute; reflexivity)) _).
  vm_compute. reflexivity.
Defined.




(** C1 at a concrete state: [p] assigned [q] where [q] refers to [p]. *)
Definition st_pq : state :=
  upd_elements [1] (final (BUILD 50 (NScene [NCreate "Rectangle" None
    [NDefine "p" (NNumber 1 None None) None; NDefine "q" (NName "p" None) None] None] None) st0)).
Definition rect_pq : elem := elem_at (heap_of st_pq) 1.
Definition cycle_pq : list prop_ref :=
  match cycle_from (store (heap_of st_pq) 1 rect_pq "p" (VProperty 1 "q")) 1 "p" (VProperty 1 "q") with
  | Some l => l | None => [] end.
Lemma assign_cycle_diagnostic_witness :
  RUN 4 (CBuild (NAssign "p" (NName "q" None) tok1)) st_pq =
  Err (create_error "Circular reference in Rectangle" ("Paths:" ++ nl ++ "p -> q -> p") tok1).
Proof.
  refine (eq_trans (assign_cycle_diagnostic ok_types no_function call_none lib_file no_scene
           keep_path keep_path slash_join 300 200 3 "p" (NName "q" None) tok1 st_pq 1 []
           rect_pq (prop_of rect_pq "p") TNumber [] (VProperty 1 "q") (upd_types [TNumber] st_pq)
           cycle_pq
           ltac:(vm_compute; reflexivity) ltac:(vm_compute; reflexivity)
           ltac:(vm_compute; reflexivity) ltac:(vm_compute; reflexivity)
           ltac:(vm_compute; reflexivity) ltac:(vm_compute; reflexivity)
           ltac:(vm_compute; reflexivity) ltac:(vm_compute; reflexivity)
           ltac:(vm_compute; reflexivity) ltac:(vm_compute; reflexivity)) _).
  vm_compute. reflexivity.
Defined.

(** A scene whose [k+1]-th [Rectangle] closes the cycle [p -> q -> p]. *)
Definition scene_cycle_in (k : nat) : node :=
  NScene (repeat (NCreate "Rectangle" None [] None) k ++
          [NCreate "Rectangle" None
             [NDefine "p" (NNumber 1 None None) None; NDefine "q" (NName "p" None) None;
              NAssign "p" (NName "q" None) tok1] None]) None.
(** Counterexample to C1: the cycle on element 1 and the cycle on element 2
    give the same diagnostic, whose elaboration names properties only. *)
Lemma cycle_diagnostic_names_no_element :
  BUILD 80 (scene_cycle_in 0) st0 =
    Err (create_error "Circular reference in Rectangle" ("Paths:" ++ nl ++ "p -> q -> p") tok1) /\
  BUILD 80 (scene_cycle_in 1) st0 =
    Err (create_error "Circular reference in Rectangle" ("Paths:" ++ nl ++ "p -> q -> p") tok1).
Proof. split; vm_compute; reflexivity. Qed.

(** C8 at a concrete heap: a [Circle] in a parent of width 300. *)
Definition heap_circle : heap :=
  [mkElem Scene None [1] [mkProp "width" (num 300) [TNumber] false false None];
   mkElem Circle (Some 0) [] []].
Definition circle_ready : heap :=
  match on_ready ok_types 300 200 heap_circle 1 with Ok h => h | Err _ => [] end.
Definition circle_half : heap :=
  match set ok_types circle_ready 1 "diameter" (pct 50) with Ok h => h | Err _ => [] end.
Lemma circle_defaults_radius_witness :
  exists q, eval call_none 4 circle_half [] (VProperty 1 "radius") = Ok (VNumber q) /\ (q == 75)%Q.
Proof.
  exact (proj2 (proj2 (proj2 (proj2 (circle_defaults_radius ok_types call_none 300 200
           heap_circle 1 0 (elem_at heap_circle 0) [] circle_ready
           ltac:(vm_compute; reflexivity) ltac:(discriminate) ltac:(vm_compute; reflexivity)
           ltac:(vm_compute; reflexivity)))))
           (mkProp "width" (num 300) [TNumber] false false None) circle_half 4
           ltac:(vm_compute; reflexivity) ltac:(vm_compute; reflexivity)
           ltac:(vm_compute; reflexivity) ltac:(lia)).
Defined.

(** C10 at a concrete state: an included file's [Create] is skipped. *)
Definition st_including : state :=
  mkState registry [] [] ["lib"] ["lib/shapes.anim"] [] [] [] [].
Definition included_file : list node :=
  [NCreate "Rectangle" None [] None; NTemplate "Box" None [] None].
Lemma included_scene_directives_witness :
  match RUN 5 (CBuild (NScene included_file None)) st_including with
  | Ok (_, st') => heap_of st' = [] /\ elements st' = []
  | Err _ => False
  end.
Proof.
  pose proof (proj2 (included_scene_directives ok_types no_function call_none lib_file no_scene
           keep_path keep_path slash_join 300 200 4 included_file None st_including
           ltac:(vm_compute; reflexivity))) as H.
  unfold RUN. destruct (run _ _ _ _ _ _ _ _ _ _ 5 _ _) as [[r st']|e] eqn:E.
  - exact (H r st' eq_refl).
  - vm_compute in E. discriminate E.
Defined.

(** C2 at a concrete state: a template [Box] with no inherit target. *)
Definition box_template : template :=
  mkTemplate "Box" None [NDefine "z" (NNumber 1 None None) None] None.
Definition st_apply : state :=
  mkState (("Box", TTemplate box_template) :: registry) [] [] [] [] []
    [mkElem Scene None [1] [mkProp "width" (num 300) [TNumber] false false None;
                            mkProp "height" (num 200) [TNumber] false false None];
     mkElem Drawable (Some 0) [] []] [] [].
Lemma apply_template_base_first_witness :
  match RUN 6 (CApply 1 "Box" tok1) st_apply with
  | Ok (_, st') => exists l, log st' = log st_apply ++ l /\
      events_of 1 l = [EvReady 1; EvDirective 1 "Box" (NDefine "z" (NNumber 1 None None) None)]
  | Err _ => False
  end.
Proof.
  pose proof (proj2 (apply_template_base_first ok_types no_function call_none lib_file no_scene
           keep_path keep_path slash_join 300 200) 6 1 "Box" tok1 st_apply) as H.
  unfold RUN. destruct (run _ _ _ _ _ _ _ _ _ _ 6 _ _) as [[r st']|e] eqn:E.
  - destruct (H r st' eq_refl ltac:(vm_compute; lia)) as [l [Hl He]].
    exists l. split; [exact Hl|]. rewrite He. vm_compute. reflexivity.
  - vm_compute in E. discriminate E.
Defined.


(** ** Witnesses of the further properties *)

(** A scene with a [Rectangle] that defines [z], then a [Text]. *)
Definition demo_scene : node :=
  NScene [NCreate "Rectangle" None [NDefine "z" (NNumber 1 None None) None] None;
          NCreate "Text" None [] None] None.
Definition st_reg : state := upd_templates registry st0.

Lemma builder_restores_stacks_witness :
  match RUN 50 (CBuild demo_scene) st_reg with
  | Ok (_, st') => elements st' = elements st_reg /\ types st' = types st_reg /\
      search_paths st' = search_paths st_reg /\ including st' = including st_reg
  | Err _ => False
  end.
Proof.
  unfold RUN. destruct (run _ _ _ _ _ _ _ _ _ _ 50 _ _) as [[r st']|e] eqn:E.
  - exact (builder_restores_stacks ok_types no_function call_none lib_file no_scene
             keep_path keep_path slash_join 300 200 50 (CBuild demo_scene) st_reg r st' E).
  - vm_compute in E. discriminate E.
Defined.

(** The file system with [lib/shapes.anim] holding a [Box] template. *)
Definition shapes_scene (f : string) : option (list node) :=
  if String.eqb f "lib/shapes.anim" then Some [NTemplate "Box" None [] None] else None.
Definition RUNF (fuel : nat) (c : call) (st : state) : result (pyval * state) :=
  run ok_types no_function call_none lib_file shapes_scene keep_path keep_path slash_join
      300 200 fuel c st.

Lemma include_then_include_noop_witness :
  match RUNF 10 (CInclude "lib/shapes.anim") st_reg with
  | Ok (_, st') => RUNF 10 (CInclude "lib/shapes.anim") st' = Ok (PNone, st')
  | Err _ => False
  end.
Proof.
  unfold RUNF. destruct (run _ _ _ _ _ _ _ _ _ _ 10 _ _) as [[r st']|e] eqn:E.
  - exact (include_then_include_noop ok_types no_function call_none lib_file shapes_scene
             keep_path keep_path slash_join 300 200 10 9 "lib/shapes.anim" st_reg r st' E).
  - vm_compute in E. discriminate E.
Defined.

Lemma template_element_type_witness :
  match RUN 1 (CBuild (NTemplate "Box" None [] None)) st_reg with
  | Ok (_, st') => get_element_type (templates st') "Box" tok1 = Ok Drawable
  | Err _ => False
  end.
Proof.
  unfold RUN. destruct (run _ _ _ _ _ _ _ _ _ _ 1 _ _) as [[r st']|e] eqn:E.
  - exact (template_element_type ok_types no_function call_none lib_file no_scene
             keep_path keep_path slash_join 300 200 0 "Box" None [] None st_reg r st' Drawable tok1
             E ltac:(vm_compute; reflexivity)).
  - vm_compute in E. discriminate E.
Defined.

(** A template [T] that inherits from itself. *)
Definition st_cyc : state :=
  upd_templates (("T", TTemplate (mkTemplate "T" (Some "T") [] None)) :: registry) st0.
Lemma create_inherit_cycle_witness :
  RUN 1 (CBuild (NCreate "T" None [] tok1)) st_cyc = Err RecursionError.
Proof.
  exact (create_inherit_cycle ok_types no_function call_none lib_file no_scene
           keep_path keep_path slash_join 300 200 0 ["T"] "T" [] tok1 st_cyc
           ltac:(intros n [<-|[]]; eexists; split; [reflexivity | vm_compute; left; reflexivity])
           ltac:(left; reflexivity)).
Defined.

Lemma builder_tree_only_grows_witness :
  match RUN 10 (CBuild (NCreate "Rectangle" None [] None)) st_rect with
  | Ok (_, st') => exists y l, nth_error (heap_of st') 1 = Some y /\
      e_cls y = e_cls (elem_at (heap_of st_rect) 1) /\
      e_parent y = e_parent (elem_at (heap_of st_rect) 1) /\
      e_children y = e_children (elem_at (heap_of st_rect) 1) ++ l
  | Err _ => False
  end.
Proof.
  unfold RUN. destruct (run _ _ _ _ _ _ _ _ _ _ 10 _ _) as [[r st']|e] eqn:E.
  - exact (builder_tree_only_grows ok_types no_function call_none lib_file no_scene
             keep_path keep_path slash_join 300 200 10 _ st_rect r st' E 1
             (elem_at (heap_of st_rect) 1) ltac:(vm_compute; reflexivity)).
  - vm_compute in E. discriminate E.
Defined.

Lemma create_attaches_new_element_witness :
  match RUN 10 (CBuild (NCreate "Rectangle" None [] None)) st_rect with
  | Ok (r, st') => r = PElement (length (heap_of st_rect)) /\
      exists x, nth_error (heap_of st') (length (heap_of st_rect)) = Some x /\
        get_element_type (templates st_rect) "Rectangle" None = Ok (e_cls x) /\
        e_parent x = hd_error (elements st_rect) /\
        (forall p y, hd_error (elements st_rect) = Some p -> nth_error (heap_of st') p = Some y ->
                     In (length (heap_of st_rect)) (e_children y))
  | Err _ => False
  end.
Proof.
  unfold RUN. destruct (run _ _ _ _ _ _ _ _ _ _ 10 _ _) as [[r st']|e] eqn:E.
  - exact (create_attaches_new_element ok_types no_function call_none lib_file no_scene
             keep_path keep_path slash_join 300 200 9 "Rectangle" [] None st_rect r st'
             ltac:(intros p Hp; vm_compute in Hp; injection Hp as <-; vm_compute; lia) E).
  - vm_compute in E. discriminate E.
Defined.

(** A fresh element of class [c] under a [Scene]. *)
Definition heap_fresh (c : cls) : heap :=
  [mkElem Scene None [1] []; mkElem c (Some 0) [] []].

Lemma drawable_on_ready_defaults_witness :
  on_ready_Drawable (heap_fresh Drawable) 1 =
  Ok (replace_nth (heap_fresh Drawable) 1 (mkElem Drawable (Some 0) [] (drawable_props 0))).
Proof.
  exact (drawable_on_ready_defaults (heap_fresh Drawable) 1 Drawable 0 [] (elem_at (heap_fresh Drawable) 0) 0
           ltac:(vm_compute; reflexivity) ltac:(vm_compute; reflexivity)
           ltac:(vm_compute; reflexivity) ltac:(intros j Hj; lia)).
Defined.

Lemma rectangle_on_ready_defaults_witness :
  on_ready ok_types 300 200 (heap_fresh Rectangle) 1 =
  Ok (replace_nth (heap_fresh Rectangle) 1 (mkElem Rectangle (Some 0) []
        (drawable_props 0 ++ color_fill_props 1 ++ outline_props))).
Proof.
  exact (rectangle_on_ready_defaults ok_types 300 200 (heap_fresh Rectangle) 1 0 []
           (elem_at (heap_fresh Rectangle) 0) 0
           ltac:(vm_compute; reflexivity) ltac:(vm_compute; reflexivity)
           ltac:(vm_compute; reflexivity) ltac:(intros j Hj; lia)).
Defined.

Lemma image_on_ready_defaults_witness :
  on_ready ok_types 300 200 (heap_fresh Image) 1 =
  Ok (replace_nth (heap_fresh Image) 1 (mkElem Image (Some 0) []
        (drawable_props 0 ++ [mkProp "filename" (VString "") [TString] false true None]))).
Proof.
  exact (image_on_ready_defaults ok_types 300 200 (heap_fresh Image) 1 0 []
           (elem_at (heap_fresh Image) 0) 0
           ltac:(vm_compute; reflexivity) ltac:(vm_compute; reflexivity)
           ltac:(vm_compute; reflexivity) ltac:(intros j Hj; lia)).
Defined.

Lemma text_on_ready_defaults_witness :
  exists h1, on_ready ok_types 300 200 (heap_fresh Text) 1 = Ok h1 /\
    lookup_prop h1 1 "anchor" =
      Some (mkProp "anchor" (VFlag "TextAnchor" 18) [TFlagType "TextAnchor"] false true None).
Proof.
  eexists. split.
  - exact (text_on_ready_defaults ok_types 300 200 (heap_fresh Text) 1 0 []
             (elem_at (heap_fresh Text) 0) 0
             ltac:(vm_compute; reflexivity) ltac:(vm_compute; reflexivity)
             ltac:(vm_compute; reflexivity) ltac:(intros j Hj; lia) ltac:(reflexivity)).
  - vm_compute. reflexivity.
Defined.

Lemma line_on_ready_defaults_witness :
  exists h1, on_ready ok_types 300 200 (heap_fresh Line) 1 = Ok h1 /\
    lookup_prop h1 1 "x" =
      Some (mkProp "x" (VProperty 1 "x1") [TNumber] false false (Some "width")).
Proof.
  eexists. split.
  - exact (line_on_ready_defaults ok_types 300 200 (heap_fresh Line) 1 0 []
             (elem_at (heap_fresh Line) 0) 0
             ltac:(vm_compute; reflexivity) ltac:(vm_compute; reflexivity)
             ltac:(vm_compute; reflexivity) ltac:(intros j Hj; lia)
             ltac:(reflexivity) ltac:(reflexivity) ltac:(reflexivity)).
  - vm_compute. reflexivity.
Defined.

Definition arc_ready : heap :=
  match on_ready ok_types 300 200 (heap_fresh Arc) 1 with Ok h => h | Err _ => [] end.
Lemma arc_on_ready_defaults_witness :
  lookup_prop arc_ready 1 "end_angle" =
    Some (mkProp "end_angle" (VAngle 360 Degrees) [TAngle] false false None).
Proof.
  rewrite (arc_on_ready_defaults ok_types 300 200 (heap_fresh Arc) 1 0 []
             (elem_at (heap_fresh Arc) 0) 0 arc_ready
             ltac:(vm_compute; reflexivity) ltac:(vm_compute; reflexivity)
             ltac:(vm_compute; reflexivity) ltac:(intros j Hj; lia)
             ltac:(vm_compute; reflexivity)).
  vm_compute. reflexivity.
Defined.

Lemma define_then_name_witness :
  match RUN 2 (CBuild (NDefine "z" (NNumber 1 None None) tok1)) st_rect with
  | Ok (r, st') => r = PNone /\ exists e rest, elements st' = e :: rest /\
      RUN 1 (CBuild (NName "z" None)) st' = Ok (PValue (VProperty e "z"), st')
  | Err _ => False
  end.
Proof.
  unfold RUN. destruct (run _ _ _ _ _ _ _ _ _ _ 2 _ _) as [[r st']|e] eqn:E.
  - exact (define_then_name ok_types no_function call_none lib_file no_scene
             keep_path keep_path slash_join 300 200 1 0 "z" (NNumber 1 None None) tok1 None
             st_rect r st' E ltac:(vm_compute; first [exact I | reflexivity])).
  - vm_compute in E. discriminate E.
Defined.

(** A root given as a [Create] node of element "Scene". *)
Definition create_root : node :=
  NCreate "Scene" None [NCreate "Rectangle" None [] None] None.
Lemma build_returns_root_scene_witness :
  match BUILD 50 create_root st0 with
  | Ok (r, st') => build_root create_root = true /\ r = PElement (length (heap_of st0)) /\
      exists x, nth_error (heap_of st') (length (heap_of st0)) = Some x /\
        e_cls x = Scene /\ e_parent x = None /\ elements st' = [] /\ types st' = []
  | Err _ => False
  end.
Proof.
  unfold BUILD. destruct (build _ _ _ _ _ _ _ _ _ _ 50 _ _) as [[r st']|e] eqn:E.
  - exact (build_returns_root_scene ok_types no_function call_none lib_file no_scene
             keep_path keep_path slash_join 300 200 50 create_root st0 r st' E).
  - vm_compute in E. discriminate E.
Defined.

Lemma expression_build_pure_witness :
  match RUN 5 (CBuild (NBinOp "+" (NNumber 1 None None) (NName "x" None) None)) st_rect with
  | Ok (_, st') => st' = st_rect
  | Err _ => False
  end.
Proof.
  unfold RUN. destruct (run _ _ _ _ _ _ _ _ _ _ 5 _ _) as [[r st']|e] eqn:E.
  - exact (expression_build_pure ok_types no_function call_none lib_file no_scene
             keep_path keep_path slash_join 300 200 5
             (NBinOp "+" (NNumber 1 None None) (NName "x" None) None) st_rect r st'
             ltac:(vm_compute; reflexivity) E).
  - vm_compute in E. discriminate E.
Defined.
